(** * prompt-tiles-app: the Flask backend (backend/app.py)

    A shallow embedding of the credential/session store, the streaming chat
    handler and the conversational data model of [backend/app.py], with the
    properties of its specification stated and settled over that embedding.

    Conventions of the embedding.
    - The SQLite database is a record of four tables; a table is the list of
      its rows in rowid order, which is the order a query without ORDER BY
      scans them in.  [db.session.add] followed by [db.session.commit]
      appends a row whose integer primary key is one more than the largest
      key of the table (SQLite's rowid rule).
    - [datetime.utcnow()] readings are arguments of the operation that takes
      them; a [datetime] is a number of microseconds.
    - Everything outside the process (the Gemini provider, the random token
      source, Fernet's IV) is an argument of the operation that consults it.
    - A Python exception caught by a handler's [try/except] is a branch that
      returns the handler's error value.
    - Identifiers are integers SQLite can hold ([sqlite_int]).  An integer
      outside that range makes the driver raise [OverflowError] when it is
      bound to a statement, which Flask answers with 500; the handlers are
      embedded on the range below it, and the properties of requests that
      bind an identifier carry the range as a hypothesis. *)

From Stdlib Require Import String Ascii List ZArith Bool Lia Sorted Permutation.
Import ListNotations.
Local Open Scope string_scope.
Local Open Scope Z_scope.

(** ** Python values *)

Definition datetime := Z.

(** Truthiness of a [str], of an [int] taken from JSON and of [None]. *)
Definition truthy_str (s : string) : bool := negb (s =? "")%string.
Definition truthy_int (z : Z) : bool := negb (z =? 0).

Definition truthy_opt {A} (truthy : A -> bool) (o : option A) : bool :=
  match o with
  | Some a => truthy a
  | None => false
  end.

(** [d.get(k, default)] on an optional JSON field. *)
Definition get_default {A} (o : option A) (d : A) : A :=
  match o with
  | Some a => a
  | None => d
  end.

Definition nl : string := String "010"%char EmptyString.

(** ** Cipher Service: [cipher_suite = Fernet(ENCRYPTION_KEY.encode())]

    The [cryptography] package is not part of the repository.  A cipher suite
    is the pair of its two methods on text: [encrypt] is
    [cipher_suite.encrypt(s.encode()).decode()] and draws a fresh IV and
    timestamp, the [nonce]; [decrypt] is
    [cipher_suite.decrypt(c.encode()).decode()], [None] when it raises. *)
Record Fernet := {
  nonce : Type;
  encrypt : nonce -> string -> string;
  decrypt : string -> option string
}.

(** Fernet's contract: a token produced under the key decrypts to the
    message it was produced from. *)
Definition Fernet_correct (F : Fernet) : Prop :=
  forall (n : nonce F) (p : string), decrypt F (encrypt F n p) = Some p.

(** ** Database models *)

Module UserSession.
Record t := {
  id : Z;
  session_id : string;
  encrypted_api_key : string;
  created_at : datetime;
  last_used : datetime
}.

Definition set_last_used (s : t) (now : datetime) : t :=
  {| id := id s;
     session_id := session_id s;
     encrypted_api_key := encrypted_api_key s;
     created_at := created_at s;
     last_used := now |}.
End UserSession.

Module Prompt.
Record t := {
  id : Z;
  title : string;
  content : string;
  created_at : datetime;
  updated_at : datetime;
  category : string
}.
End Prompt.

Module Chat.
Record t := {
  id : Z;
  prompt_id : Z;
  session_id : string;
  created_at : datetime
}.
End Chat.

Module Message.
Record t := {
  id : Z;
  chat_id : Z;
  role : string;
  content : string;
  created_at : datetime
}.

(** [Message.to_dict]; [isoformat] is kept as the timestamp itself. *)
Record dict := {
  d_id : Z;
  d_role : string;
  d_content : string;
  d_created_at : datetime
}.

Definition to_dict (m : t) : dict :=
  {| d_id := id m;
     d_role := role m;
     d_content := content m;
     d_created_at := created_at m |}.
End Message.

Record DB := {
  user_sessions : list UserSession.t;
  prompts : list Prompt.t;
  chats : list Chat.t;
  messages : list Message.t
}.

Definition empty_db : DB :=
  {| user_sessions := []; prompts := []; chats := []; messages := [] |}.

(** The integer primary key SQLite gives the next row of a table. *)
Definition next_id (ids : list Z) : Z := 1 + fold_right Z.max 0 ids.

(** *** Table writes *)

Definition add_user_session (db : DB) (s : UserSession.t) : DB :=
  {| user_sessions := user_sessions db ++ [s];
     prompts := prompts db;
     chats := chats db;
     messages := messages db |}.

Definition add_chat (db : DB) (c : Chat.t) : DB :=
  {| user_sessions := user_sessions db;
     prompts := prompts db;
     chats := chats db ++ [c];
     messages := messages db |}.

Definition add_message (db : DB) (m : Message.t) : DB :=
  {| user_sessions := user_sessions db;
     prompts := prompts db;
     chats := chats db;
     messages := messages db ++ [m] |}.

(** The row [Message(chat_id=..., role=..., content=...)] becomes when it is
    added and committed. *)
Definition new_message (db : DB) (chat_id : Z) (role content : string)
    (now : datetime) : Message.t :=
  {| Message.id := next_id (map Message.id (messages db));
     Message.chat_id := chat_id;
     Message.role := role;
     Message.content := content;
     Message.created_at := now |}.

(** A session with its [last_used] column blanked, to compare the others. *)
Definition but_last_used (s : UserSession.t) : UserSession.t :=
  UserSession.set_last_used s 0.

(** [UPDATE user_session SET last_used = now WHERE id = pk]. *)
Definition touch (pk : Z) (now : datetime) (s : UserSession.t) : UserSession.t :=
  if UserSession.id s =? pk then UserSession.set_last_used s now else s.

Definition update_last_used (db : DB) (pk : Z) (now : datetime) : DB :=
  {| user_sessions := map (touch pk now) (user_sessions db);
     prompts := prompts db;
     chats := chats db;
     messages := messages db |}.

(** *** Queries *)

(** [UserSession.query.filter_by(session_id=sid).first()]. *)
Definition session_by_token (db : DB) (sid : string) : option UserSession.t :=
  find (fun s => (UserSession.session_id s =? sid)%string) (user_sessions db).

(** [Chat.query.get(pk)], for a key SQLite can hold. *)
Definition chat_by_id (db : DB) (pk : Z) : option Chat.t :=
  find (fun c => Chat.id c =? pk) (chats db).

(** [chat.messages]: the relationship has no [order_by]; the rows of the
    chat come back in table order. *)
Definition chat_messages (db : DB) (pk : Z) : list Message.t :=
  filter (fun m => Message.chat_id m =? pk) (messages db).

(** ** HTTP responses

    A JSON body with its status, a [text/event-stream] body, or the HTML
    error page werkzeug sends for an [abort] with that status. *)

Inductive response :=
| Json (status : Z) (body : list (string * string))
| EventStream (events : list string)
| Aborted (status : Z).

(** ** Session Store *)

(** Outcome of the test call
    [genai.configure(api_key=new_key); test_model.generate_content('test')]. *)
Inductive probe :=
| ProbeOk
| ProbeRaises (msg : string).

(** The head of [str(e)] for the [IntegrityError] of a taken token; the text
    goes on with the statement, its parameters and a link. *)
Definition integrity_error : string :=
  "(sqlite3.IntegrityError) UNIQUE constraint failed: user_session.session_id".

Section SessionStore.
Variable cipher_suite : Fernet.

(** [POST /settings/api-key].  [api_key] is [data.get('api_key')], [verdict]
    the outcome of the test call, [token] the value of
    [secrets.token_urlsafe(32)], [iv] Fernet's nonce, and [t_created],
    [t_used] the two readings of [datetime.utcnow] taken by the column
    defaults of [created_at] and [last_used], in that order.  The unique
    constraint on [session_id] makes the commit raise, inside the [try],
    when the token is already taken. *)
Definition update_api_key (db : DB) (api_key : option string) (verdict : probe)
    (token : string) (iv : nonce cipher_suite) (t_created t_used : datetime)
    : DB * response :=
  if negb (truthy_opt truthy_str api_key) then
    (db, Json 400 [("error", "API key is required")])
  else
    let new_key := get_default api_key "" in
    match verdict with
    | ProbeRaises e => (db, Json 400 [("error", e)])
    | ProbeOk =>
        let session_id := token in
        let encrypted_key := encrypt cipher_suite iv new_key in
        let session :=
          {| UserSession.id := next_id (map UserSession.id (user_sessions db));
             UserSession.session_id := session_id;
             UserSession.encrypted_api_key := encrypted_key;
             UserSession.created_at := t_created;
             UserSession.last_used := t_used |} in
        match session_by_token db session_id with
        | Some _ => (db, Json 400 [("error", integrity_error)])
        | None =>
            (add_user_session db session,
             Json 200 [("message", "API key saved successfully");
                       ("session_id", session_id)])
        end
    end.

(** [get_api_key_from_session].  [session_id] is the optional
    [X-Session-ID] header.  The timestamp is written and committed first,
    the stored blob is decrypted afterwards; a failed decryption is caught
    by the bare [except] and gives [None]. *)
Definition get_api_key_from_session (db : DB) (session_id : option string)
    (now : datetime) : DB * option string :=
  if negb (truthy_opt truthy_str session_id) then (db, None)
  else
    match session_by_token db (get_default session_id "") with
    | None => (db, None)
    | Some session =>
        let db' := update_last_used db (UserSession.id session) now in
        (db', decrypt cipher_suite (UserSession.encrypted_api_key session))
    end.
End SessionStore.

(** The session token carried by a successful registration response. *)
Definition issued_session_id (r : response) : option string :=
  match r with
  | Json 200 [(_, _); ("session_id", sid)] => Some sid
  | _ => None
  end.

(** ** Conversation Store *)

(** [POST /prompts]: [category] is [data.get('category', 'General')];
    [t_created] and [t_updated] are the two readings of [datetime.utcnow]
    taken by the column defaults of [created_at] and [updated_at], in that
    order.  The body of a prompt response keeps the text fields of
    [Prompt.to_dict]. *)
Definition create_prompt (db : DB) (title content : string)
    (category : option string) (t_created t_updated : datetime) : DB * response :=
  let new_prompt :=
    {| Prompt.id := next_id (map Prompt.id (prompts db));
       Prompt.title := title;
       Prompt.content := content;
       Prompt.created_at := t_created;
       Prompt.updated_at := t_updated;
       Prompt.category := get_default category "General" |} in
  ({| user_sessions := user_sessions db;
      prompts := prompts db ++ [new_prompt];
      chats := chats db;
      messages := messages db |},
   Json 201 [("title", title); ("content", content);
             ("category", get_default category "General")]).

(** [PUT /prompts/<id>], for an identifier SQLite can hold: absent fields
    keep their value; [onupdate] stamps [updated_at] when the row is
    rewritten, that is when a field changed. *)
Definition revise (title content category : option string) (now : datetime)
    (p : Prompt.t) : Prompt.t :=
  let title' := get_default title (Prompt.title p) in
  let content' := get_default content (Prompt.content p) in
  let category' := get_default category (Prompt.category p) in
  let same := ((title' =? Prompt.title p)%string
               && (content' =? Prompt.content p)%string
               && (category' =? Prompt.category p)%string)%bool in
  {| Prompt.id := Prompt.id p;
     Prompt.title := title';
     Prompt.content := content';
     Prompt.created_at := Prompt.created_at p;
     Prompt.updated_at := if same then Prompt.updated_at p else now;
     Prompt.category := category' |}.

(** [get_or_404] on a key of no row. *)
Definition not_found : response := Aborted 404.

Definition update_prompt (db : DB) (pk : Z) (title content category : option string)
    (now : datetime) : DB * response :=
  match find (fun p => Prompt.id p =? pk) (prompts db) with
  | None => (db, not_found)
  | Some p =>
      let p' := revise title content category now p in
      ({| user_sessions := user_sessions db;
          prompts := map (fun q => if Prompt.id q =? pk then revise title content category now q
                                   else q) (prompts db);
          chats := chats db;
          messages := messages db |},
       Json 200 [("title", Prompt.title p'); ("content", Prompt.content p');
                 ("category", Prompt.category p')])
  end.

(** [DELETE /prompts/<id>], for an identifier SQLite can hold: the
    [cascade='all, delete-orphan'] relationships delete the prompt's chats
    and the messages of those chats. *)
Definition delete_prompt (db : DB) (pk : Z) : DB * response :=
  match find (fun p => Prompt.id p =? pk) (prompts db) with
  | None => (db, not_found)
  | Some _ =>
      let doomed := filter (fun c => Chat.prompt_id c =? pk) (chats db) in
      ({| user_sessions := user_sessions db;
          prompts := filter (fun p => negb (Prompt.id p =? pk)) (prompts db);
          chats := filter (fun c => negb (Chat.prompt_id c =? pk)) (chats db);
          messages :=
            filter (fun m => negb (existsb (fun c => Chat.id c =? Message.chat_id m) doomed))
                   (messages db) |},
       Json 204 [])
  end.

(** [Chat.to_dict]. *)
Record chat_dict := {
  cd_id : Z;
  cd_prompt_id : Z;
  cd_created_at : datetime;
  cd_messages : list Message.dict
}.

Definition Chat_to_dict (db : DB) (c : Chat.t) : chat_dict :=
  {| cd_id := Chat.id c;
     cd_prompt_id := Chat.prompt_id c;
     cd_created_at := Chat.created_at c;
     cd_messages := map Message.to_dict (chat_messages db (Chat.id c)) |}.

(** [order_by(Chat.created_at.desc())]: newest first; rows with equal
    timestamps stay in table order. *)
Fixpoint insert_desc (c : Chat.t) (l : list Chat.t) : list Chat.t :=
  match l with
  | [] => [c]
  | x :: r =>
      if Chat.created_at x <=? Chat.created_at c then c :: l
      else x :: insert_desc c r
  end.

Definition order_by_created_at_desc (l : list Chat.t) : list Chat.t :=
  fold_right insert_desc [] l.

(** [GET /chats/<prompt_id>], for an identifier SQLite can hold. *)
Definition get_chats (db : DB) (prompt_id : Z) : list chat_dict :=
  let chats := order_by_created_at_desc
                 (filter (fun c => Chat.prompt_id c =? prompt_id) (chats db)) in
  map (Chat_to_dict db) chats.

(** ** Stream Orchestrator *)

(** The parts of a [POST /chat/stream] request the handler reads: the
    [X-Session-ID] header and four optional fields of the JSON body. *)
Record chat_request := {
  rq_session_id : option string;
  rq_prompt : option string;
  rq_message : option string;
  rq_prompt_id : option Z;
  rq_chat_id : option Z
}.

(** The integers the SQLite driver binds to a statement: 64-bit signed. *)
Definition sqlite_int (z : Z) : Prop := - 2 ^ 63 <= z < 2 ^ 63.

(** The identifier a chat request hands to the database: its chat
    identifier when that is truthy, else its prompt identifier when that
    is, else none. *)
Definition bound_id (req : chat_request) : option Z :=
  if truthy_opt truthy_int (rq_chat_id req) then rq_chat_id req
  else if truthy_opt truthy_int (rq_prompt_id req) then rq_prompt_id req
  else None.

(** The request binds no identifier, or one SQLite can hold. *)
Definition bindable (req : chat_request) : Prop :=
  match bound_id req with
  | Some z => sqlite_int z
  | None => True
  end.

(** What [chat_model.generate_content(full_prompt, stream=True)] gives when
    it is iterated: the [chunk.text] of each chunk, and whether the iteration
    ends or raises. *)
Inductive stream_end := Exhausted | Raised.

Record provider_stream := {
  chunks : list string;
  ending : stream_end
}.

(** The generator object [generate()]: the variables of [stream_chat] its
    body closes over.  The chat is the ORM object, held by its primary key;
    the body reads its row again when it evaluates [chat.id]. *)
Record generator := {
  g_api_key : string;
  g_full_prompt : string;
  g_chat : option Z
}.

Inductive handled :=
| Rejected (r : response)
| Streaming (g : generator).

Definition unauthorized : response :=
  Json 401 [("error", "Invalid or expired session. Please set your API key in settings.")].

(** [f"{prompt_text}\n\nUser: {user_input}" if prompt_text else user_input] *)
Definition full_prompt (prompt_text user_input : string) : string :=
  if truthy_str prompt_text then prompt_text ++ nl ++ nl ++ "User: " ++ user_input
  else user_input.

(** [f"data: {chunk.text}\n\n"] *)
Definition sse (text : string) : string := "data: " ++ text ++ nl ++ nl.

(** The [for chunk in response] loop: the accumulated [ai_response] and the
    events yielded, for the chunks received before the stream ends. *)
Fixpoint relay (texts : list string) (ai_response : string) : string * list string :=
  match texts with
  | [] => (ai_response, [])
  | text :: rest =>
      if truthy_str text then
        let '(total, events) := relay rest (ai_response ++ text) in
        (total, sse text :: events)
      else relay rest ai_response
  end.

Record drained := {
  dr_db : DB;
  dr_events : list string;
  dr_raised : bool
}.

(** The body of [generate()], run to its end on the stream the provider
    returned.  A stream that raises ends the generator before the
    assistant message is saved, and so does a chat row deleted meanwhile. *)
Definition generate (db : DB) (g : generator) (response : provider_stream)
    (now : datetime) : drained :=
  let '(ai_response, events) := relay (chunks response) "" in
  match ending response with
  | Raised => {| dr_db := db; dr_events := events; dr_raised := true |}
  | Exhausted =>
      match g_chat g with
      | Some pk =>
          if truthy_str ai_response then
            match chat_by_id db pk with
            | Some chat =>
                let message := new_message db (Chat.id chat) "assistant" ai_response now in
                {| dr_db := add_message db message; dr_events := events; dr_raised := false |}
            | None => {| dr_db := db; dr_events := events; dr_raised := true |}
            end
          else {| dr_db := db; dr_events := events; dr_raised := false |}
      | None => {| dr_db := db; dr_events := events; dr_raised := false |}
      end
  end.

Section Orchestrator.
Variable cipher_suite : Fernet.

(** "Create or get chat session": the chat the request resolves to, for a
    request that is [bindable]. *)
Definition resolve_chat (db : DB) (req : chat_request) (now : datetime)
    : DB * option Chat.t :=
  if truthy_opt truthy_int (rq_chat_id req) then
    (db, chat_by_id db (get_default (rq_chat_id req) 0))
  else if truthy_opt truthy_int (rq_prompt_id req) then
    let chat :=
      {| Chat.id := next_id (map Chat.id (chats db));
         Chat.prompt_id := get_default (rq_prompt_id req) 0;
         Chat.session_id := get_default (rq_session_id req) "";
         Chat.created_at := now |} in
    (add_chat db chat, Some chat)
  else (db, None).

(** "Save user message". *)
Definition save_user_message (db : DB) (chat : option Chat.t) (user_input : string)
    (now : datetime) : DB :=
  match chat with
  | Some chat =>
      let message := new_message db (Chat.id chat) "user" user_input now in
      add_message db message
  | None => db
  end.

(** The handler of [POST /chat/stream] up to its [return]: either the 401
    response, or the generator handed to [Response].  The three clock
    readings are those of the session refresh, the new chat and the user
    message. *)
Definition stream_chat (db : DB) (req : chat_request)
    (t_used t_chat t_msg : datetime) : DB * handled :=
  let session_id := rq_session_id req in
  let '(db, api_key) := get_api_key_from_session cipher_suite db session_id t_used in
  if negb (truthy_opt truthy_str api_key) then (db, Rejected unauthorized)
  else
    let prompt_text := get_default (rq_prompt req) "" in
    let user_input := get_default (rq_message req) "" in
    let '(db, chat) := resolve_chat db req t_chat in
    let db := save_user_message db chat user_input t_msg in
    (db, Streaming {| g_api_key := get_default api_key "";
                      g_full_prompt := full_prompt prompt_text user_input;
                      g_chat := option_map Chat.id chat |}).

(** One whole request served without any other request in between: the
    handler, then the response body drained.  [genai] answers the
    provider call made with a key and a prompt. *)
Record served := {
  sv_db : DB;
  sv_response : response;
  sv_provider_calls : list (string * string);
  sv_raised : bool
}.

Definition serve_stream_chat (genai : string -> string -> provider_stream)
    (db : DB) (req : chat_request) (t_used t_chat t_msg t_reply : datetime) : served :=
  match stream_chat db req t_used t_chat t_msg with
  | (db, Rejected r) =>
      {| sv_db := db; sv_response := r; sv_provider_calls := []; sv_raised := false |}
  | (db, Streaming g) =>
      let out := generate db g (genai (g_api_key g) (g_full_prompt g)) t_reply in
      {| sv_db := dr_db out;
         sv_response := EventStream (dr_events out);
         sv_provider_calls := [(g_api_key g, g_full_prompt g)];
         sv_raised := dr_raised out |}
  end.
End Orchestrator.

(** ** The running service

    Requests are served one handler at a time, but the body of a streamed
    response is drained later, possibly after other requests: a [World] keeps
    the database, the generators not yet drained and the last reading of the
    clock.  [w_appended] is a history variable: every Message row ever
    inserted, in the order of insertion.  The clock is assumed not to run
    backwards: an event whose readings do is not enabled. *)
Section Service.
Variable cipher_suite : Fernet.

Record World := {
  w_db : DB;
  w_pending : list generator;
  w_appended : list Message.t;
  w_clock : datetime
}.

Definition initial : World :=
  {| w_db := empty_db; w_pending := []; w_appended := []; w_clock := 0 |}.

Inductive event :=
| CreatePrompt (title content : string) (category : option string)
    (t_created t_updated : datetime)
| UpdatePrompt (pk : Z) (title content category : option string) (now : datetime)
| DeletePrompt (pk : Z)
| UpdateApiKey (api_key : option string) (verdict : probe) (token : string)
    (iv : nonce cipher_suite) (t_created t_used : datetime)
| StreamChat (req : chat_request) (t_used t_chat t_msg : datetime)
| Drain (i : nat) (response : provider_stream) (now : datetime).

(** The rows an insert-only step added to the Message table. *)
Definition inserted (before after : DB) : list Message.t :=
  skipn (length (messages before)) (messages after).

Definition enqueue (pending : list generator) (h : handled) : list generator :=
  match h with
  | Streaming g => pending ++ [g]
  | Rejected _ => pending
  end.

Definition exec (w : World) (ev : event) : option World :=
  match ev with
  | CreatePrompt title content category t_created t_updated =>
      if ((w_clock w <=? t_created) && (t_created <=? t_updated))%bool then
        Some {| w_db := fst (create_prompt (w_db w) title content category
                               t_created t_updated);
                w_pending := w_pending w;
                w_appended := w_appended w;
                w_clock := t_updated |}
      else None
  | UpdatePrompt pk title content category now =>
      if w_clock w <=? now then
        Some {| w_db := fst (update_prompt (w_db w) pk title content category now);
                w_pending := w_pending w;
                w_appended := w_appended w;
                w_clock := now |}
      else None
  | DeletePrompt pk =>
      Some {| w_db := fst (delete_prompt (w_db w) pk);
              w_pending := w_pending w;
              w_appended := w_appended w;
              w_clock := w_clock w |}
  | UpdateApiKey api_key verdict token iv t_created t_used =>
      if ((w_clock w <=? t_created) && (t_created <=? t_used))%bool then
        Some {| w_db := fst (update_api_key cipher_suite (w_db w) api_key verdict token iv
                               t_created t_used);
                w_pending := w_pending w;
                w_appended := w_appended w;
                w_clock := t_used |}
      else None
  | StreamChat req t_used t_chat t_msg =>
      if ((w_clock w <=? t_used) && (t_used <=? t_chat) && (t_chat <=? t_msg))%bool then
        let '(db, h) := stream_chat cipher_suite (w_db w) req t_used t_chat t_msg in
        Some {| w_db := db;
                w_pending := enqueue (w_pending w) h;
                w_appended := w_appended w ++ inserted (w_db w) db;
                w_clock := t_msg |}
      else None
  | Drain i response now =>
      match nth_error (w_pending w) i with
      | Some g =>
          if w_clock w <=? now then
            let out := generate (w_db w) g response now in
            Some {| w_db := dr_db out;
                    w_pending := firstn i (w_pending w) ++ skipn (S i) (w_pending w);
                    w_appended := w_appended w ++ inserted (w_db w) (dr_db out);
                    w_clock := now |}
          else None
      | None => None
      end
  end.

Fixpoint run (w : World) (evs : list event) : option World :=
  match evs with
  | [] => Some w
  | ev :: rest =>
      match exec w ev with
      | Some w' => run w' rest
      | None => None
      end
  end.
End Service.

(** A list taken from another by dropping elements, order kept. *)
Inductive subseq {A} : list A -> list A -> Prop :=
| subseq_nil : subseq [] []
| subseq_skip : forall x l1 l2, subseq l1 l2 -> subseq l1 (x :: l2)
| subseq_keep : forall x l1 l2, subseq l1 l2 -> subseq (x :: l1) (x :: l2).

(** The invariant of the running service: the Message table is what is left
    of the rows ever inserted, in their order of insertion; those rows
    carry timestamps that never decrease and never exceed the clock; and the
    table lists its rows by ascending key, the order SQLite scans them in. *)
Definition history_ok (w : World) : Prop :=
  subseq (messages (w_db w)) (w_appended w) /\
  StronglySorted Z.le (map Message.created_at (w_appended w)) /\
  Forall (fun m => Message.created_at m <= w_clock w) (w_appended w) /\
  StronglySorted Z.lt (map Message.id (messages (w_db w))).

(** The rows one insert adds to the Message table of [db] at time [now]:
    none, or one row with the next key and that timestamp. *)
Definition one_insert (db : DB) (now : datetime) (rest : list Message.t) : Prop :=
  rest = [] \/
  exists m, rest = [m] /\ Message.created_at m = now /\
            Message.id m = next_id (map Message.id (messages db)).

(** A run of the service from the empty database: a first prompt, a
    registration, a first turn under the prompt and its reply, then a
    further turn on the chat and its reply. *)
Definition session_events (F : Fernet) (iv : nonce F) : list (event F) :=
  [ CreatePrompt F "Translate" "Translate to French." None 5 6;
    UpdateApiKey F (Some "AIza-key") ProbeOk "tok-1" iv 10 11;
    StreamChat F {| rq_session_id := Some "tok-1";
                    rq_prompt := Some "Translate to French.";
                    rq_message := Some "good morning";
                    rq_prompt_id := Some 1;
                    rq_chat_id := None |} 20 20 21;
    Drain F 0 {| chunks := ["Bon"; "jour"]; ending := Exhausted |} 25;
    StreamChat F {| rq_session_id := Some "tok-1";
                    rq_prompt := None;
                    rq_message := Some "good night";
                    rq_prompt_id := None;
                    rq_chat_id := Some 1 |} 30 30 30;
    Drain F 0 {| chunks := ["Bonne nuit"]; ending := Exhausted |} 30 ].

(** ** A cipher to run the handlers on

    Stands in for Fernet in concrete runs: a token is the plaintext behind
    the version prefix of a Fernet token, anything else fails to decrypt. *)
Module Toy.
Fixpoint strip_prefix (p s : string) : option string :=
  match p, s with
  | EmptyString, _ => Some s
  | String a p', String b s' => if Ascii.eqb a b then strip_prefix p' s' else None
  | String _ _, EmptyString => None
  end.

Definition cipher : Fernet :=
  {| nonce := unit;
     encrypt := fun _ p => "gAAAAA" ++ p;
     decrypt := strip_prefix "gAAAAA" |}.

(** One registered session holding the credential "AIza-key", one prompt
    and one chat with one earlier user message. *)
Definition session : UserSession.t :=
  {| UserSession.id := 1;
     UserSession.session_id := "tok-1";
     UserSession.encrypted_api_key := "gAAAAAAIza-key";
     UserSession.created_at := 10;
     UserSession.last_used := 10 |}.

(** The same session with its stored blob overwritten out of band. *)
Definition corrupt_session : UserSession.t :=
  {| UserSession.id := 1;
     UserSession.session_id := "tok-1";
     UserSession.encrypted_api_key := "garbage";
     UserSession.created_at := 10;
     UserSession.last_used := 10 |}.

Definition tile : Prompt.t :=
  {| Prompt.id := 1;
     Prompt.title := "Translate";
     Prompt.content := "Translate to French.";
     Prompt.created_at := 5;
     Prompt.updated_at := 5;
     Prompt.category := "General" |}.

Definition chat : Chat.t :=
  {| Chat.id := 1; Chat.prompt_id := 1; Chat.session_id := "tok-1"; Chat.created_at := 20 |}.

Definition first_message : Message.t :=
  {| Message.id := 1;
     Message.chat_id := 1;
     Message.role := "user";
     Message.content := "hello";
     Message.created_at := 20 |}.

Definition db : DB :=
  {| user_sessions := [session];
     prompts := [tile];
     chats := [chat];
     messages := [first_message] |}.

Definition corrupt_db : DB :=
  {| user_sessions := [corrupt_session];
     prompts := [tile];
     chats := [chat];
     messages := [first_message] |}.

(** Requests of the session "tok-1": a further turn on chat 1, a first turn
    under prompt 1, the same with an empty message, a turn on a chat that
    does not exist, a further turn that repeats the prompt text, and a first
    turn that leaves it out. *)
Definition continue_chat : chat_request :=
  {| rq_session_id := Some "tok-1";
     rq_prompt := None;
     rq_message := Some "and in Spanish?";
     rq_prompt_id := None;
     rq_chat_id := Some 1 |}.

Definition start_chat : chat_request :=
  {| rq_session_id := Some "tok-1";
     rq_prompt := Some "Translate to French.";
     rq_message := Some "good morning";
     rq_prompt_id := Some 1;
     rq_chat_id := None |}.

Definition empty_message : chat_request :=
  {| rq_session_id := Some "tok-1";
     rq_prompt := Some "Translate to French.";
     rq_message := Some "";
     rq_prompt_id := Some 1;
     rq_chat_id := None |}.

Definition unknown_chat : chat_request :=
  {| rq_session_id := Some "tok-1";
     rq_prompt := None;
     rq_message := Some "hi there";
     rq_prompt_id := None;
     rq_chat_id := Some 7 |}.



(** The chat a first turn creates in [db] at time 31. *)
Definition second_chat : Chat.t :=
  {| Chat.id := 2; Chat.prompt_id := 1; Chat.session_id := "tok-1"; Chat.created_at := 31 |}.

(** A provider that answers every call with the fragments "Hel", "lo". *)
Definition hello (_ _ : string) : provider_stream :=
  {| chunks := ["Hel"; "lo"]; ending := Exhausted |}.

(** A provider whose stream raises after one fragment. *)
Definition broken (_ _ : string) : provider_stream :=
  {| chunks := ["Hel"]; ending := Raised |}.

(** A provider whose stream ends at once. *)
Definition silent (_ _ : string) : provider_stream :=
  {| chunks := []; ending := Exhausted |}.
End Toy.

(** ** Prompt listing

    [GET /prompts].  [str.lower] and [str.strip] are Python's, taken as
    parameters; the rows stand for their [to_dict]. *)
Section Listing.
Variable lower : string -> string.
Variable strip : string -> string.

(** [order_by(Prompt.created_at.desc())]. *)
Fixpoint insert_newest (p : Prompt.t) (l : list Prompt.t) : list Prompt.t :=
  match l with
  | [] => [p]
  | x :: r =>
      if Prompt.created_at x <=? Prompt.created_at p then p :: l
      else x :: insert_newest p r
  end.

Definition newest_first (l : list Prompt.t) : list Prompt.t :=
  fold_right insert_newest [] l.

(** [p.category and p.category.lower() == category.lower()] *)
Definition category_matches (category : string) (p : Prompt.t) : bool :=
  (truthy_str (Prompt.category p)
   && (lower (Prompt.category p) =? lower category)%string)%bool.

(** [category_arg] is [request.args.get('category')]. *)
Definition get_prompts (db : DB) (category_arg : option string) : list Prompt.t :=
  let category := strip (get_default category_arg "") in
  let all_prompts := newest_first (prompts db) in
  if truthy_str category then filter (category_matches category) all_prompts
  else all_prompts.
End Listing.

(** ** Integrity of the stored state *)

(** Primary keys ascend along every table. *)
Definition keys_ascend (db : DB) : Prop :=
  StronglySorted Z.lt (map UserSession.id (user_sessions db)) /\
  StronglySorted Z.lt (map Prompt.id (prompts db)) /\
  StronglySorted Z.lt (map Chat.id (chats db)) /\
  StronglySorted Z.lt (map Message.id (messages db)).

(** The unique constraint on [user_session.session_id]. *)
Definition tokens_distinct (db : DB) : Prop :=
  NoDup (map UserSession.session_id (user_sessions db)).

(** Keys and tokens as the database constraints want them. *)
Definition sound (db : DB) : Prop := keys_ascend db /\ tokens_distinct db.

(** Every Message row belongs to a Chat row. *)
Definition messages_owned (db : DB) : Prop :=
  Forall (fun m => exists c, In c (chats db) /\ Chat.id c = Message.chat_id m)
         (messages db).

Definition is_delete {F : Fernet} (ev : event F) : bool :=
  match ev with
  | DeletePrompt _ _ => true
  | _ => false
  end.

(** [l] with rows added at its end. *)
Definition grows {A} (l l' : list A) : Prop := exists rest, l' = (l ++ rest)%list.

(** Insertion by descending key, the scheme of both [order_by] clauses. *)
Fixpoint insert_by {A} (key : A -> Z) (x : A) (l : list A) : list A :=
  match l with
  | [] => [x]
  | y :: r => if key y <=? key x then x :: l else y :: insert_by key x r
  end.

(** Newest first: no row comes before a row with a later timestamp. *)
Definition descending {A} (key : A -> Z) (l : list A) : Prop :=
  StronglySorted (fun a b => key b <= key a) l.

(** ["".join(texts)] *)
Definition join (texts : list string) : string := fold_right String.append "" texts.

(** ASCII stand-ins for [str.lower] and [str.strip], to run the listing on. *)
Module Text.
Definition lower_ascii (c : ascii) : ascii :=
  let n := nat_of_ascii c in
  if ((65 <=? n)%nat && (n <=? 90)%nat)%bool then ascii_of_nat (n + 32) else c.

Fixpoint lower (s : string) : string :=
  match s with
  | EmptyString => EmptyString
  | String c r => String (lower_ascii c) (lower r)
  end.

Fixpoint lstrip (s : string) : string :=
  match s with
  | String c r => if Ascii.eqb c " " then lstrip r else s
  | EmptyString => EmptyString
  end.

Fixpoint rstrip (s : string) : string :=
  match s with
  | EmptyString => EmptyString
  | String c r =>
      let r' := rstrip r in
      if (Ascii.eqb c " " && (r' =? "")%string)%bool then EmptyString else String c r'
  end.

Definition strip (s : string) : string := rstrip (lstrip s).

Definition tiles : DB :=
  {| user_sessions := [];
     prompts :=
       [ {| Prompt.id := 1; Prompt.title := "Translate"; Prompt.content := "Translate to French.";
            Prompt.created_at := 5; Prompt.updated_at := 5; Prompt.category := "Writing" |};
         {| Prompt.id := 2; Prompt.title := "Review"; Prompt.content := "Review this code.";
            Prompt.created_at := 7; Prompt.updated_at := 7; Prompt.category := "Coding" |};
         {| Prompt.id := 3; Prompt.title := "Summarise"; Prompt.content := "Summarise the text.";
            Prompt.created_at := 9; Prompt.updated_at := 9; Prompt.category := "writing" |} ];
     chats := [];
     messages := [] |}.
End Text.

(** Two prompts with a chat each, to run deletions on. *)
Module Shelf.
Definition db : DB :=
  {| user_sessions := [Toy.session];
     prompts :=
       [ Toy.tile;
         {| Prompt.id := 2; Prompt.title := "Review"; Prompt.content := "Review this code.";
            Prompt.created_at := 7; Prompt.updated_at := 7; Prompt.category := "Coding" |} ];
     chats :=
       [ Toy.chat;
         {| Chat.id := 2; Chat.prompt_id := 2; Chat.session_id := "tok-1";
            Chat.created_at := 22 |} ];
     messages :=
       [ Toy.first_message;
         {| Message.id := 2; Message.chat_id := 2; Message.role := "user";
            Message.content := "def f(): pass"; Message.created_at := 22 |};
         {| Message.id := 3; Message.chat_id := 2; Message.role := "assistant";
            Message.content := "Looks fine."; Message.created_at := 23 |} ] |}.
End Shelf.

(** * Properties *)

(** ** Lists and tables *)

Lemma find_app_last {A} (f : A -> bool) (l : list A) (x : A) :
  find f (l ++ [x]) =
  match find f l with
  | Some y => Some y
  | None => if f x then Some x else None
  end.
Proof.
  induction l as [|a l IH]; simpl.
  - reflexivity.
  - destruct (f a); [reflexivity | exact IH].
Qed.

Lemma find_holds {A} (f : A -> bool) (l : list A) (x : A) :
  find f l = Some x -> f x = true.
Proof. intros H. apply find_some in H. tauto. Qed.

Lemma truthy_str_true (s : string) : truthy_str s = true <-> s <> "".
Proof.
  unfold truthy_str. rewrite negb_true_iff.
  split; intros H.
  - intros ->. discriminate.
  - destruct (String.eqb_spec s ""); congruence.
Qed.

Lemma truthy_str_false (s : string) : truthy_str s = false <-> s = "".
Proof.
  unfold truthy_str. rewrite negb_false_iff. apply String.eqb_eq.
Qed.

(** Refreshing [last_used] keeps every session findable under its token. *)
Lemma find_token_touch (sid : string) (pk : Z) (now : datetime) (l : list UserSession.t) :
  find (fun s => (UserSession.session_id s =? sid)%string) (map (touch pk now) l) =
  option_map (touch pk now) (find (fun s => (UserSession.session_id s =? sid)%string) l).
Proof.
  induction l as [|a l IH]; simpl; [reflexivity|].
  assert (E : UserSession.session_id (touch pk now a) = UserSession.session_id a).
  { unfold touch. destruct (UserSession.id a =? pk); reflexivity. }
  rewrite E. destruct (UserSession.session_id a =? sid)%string; [reflexivity | exact IH].
Qed.

Lemma touch_but_last_used (pk : Z) (now : datetime) (l : list UserSession.t) :
  map but_last_used (map (touch pk now) l) = map but_last_used l.
Proof.
  rewrite map_map. apply map_ext. intros s.
  unfold touch. destruct (UserSession.id s =? pk); reflexivity.
Qed.

(** ** Session Store *)

Section SessionStoreFacts.
Variable F : Fernet.

(** Session resolution writes to the session table only. *)
Lemma resolve_frame (db : DB) (sid : option string) (now : datetime) :
  let db' := fst (get_api_key_from_session F db sid now) in
  prompts db' = prompts db /\ chats db' = chats db /\ messages db' = messages db /\
  map but_last_used (user_sessions db') = map but_last_used (user_sessions db).
Proof.
  unfold get_api_key_from_session.
  destruct (negb (truthy_opt truthy_str sid)); simpl; [tauto|].
  destruct (session_by_token db (get_default sid "")); simpl; [|tauto].
  repeat split. apply touch_but_last_used.
Qed.

(** When registration answers 200 it was given a non-empty credential the
    provider accepted and a token no session had. *)
Lemma update_api_key_issued (db db' : DB) (api_key : option string) (verdict : probe)
    (token t : string) (iv : nonce F) (t_created t_used : datetime) (r : response) :
  update_api_key F db api_key verdict token iv t_created t_used = (db', r) ->
  issued_session_id r = Some t ->
  exists key,
    api_key = Some key /\ key <> "" /\ verdict = ProbeOk /\ t = token /\
    session_by_token db token = None /\
    db' = add_user_session db
            {| UserSession.id := next_id (map UserSession.id (user_sessions db));
               UserSession.session_id := token;
               UserSession.encrypted_api_key := encrypt F iv key;
               UserSession.created_at := t_created;
               UserSession.last_used := t_used |}.
Proof.
  unfold update_api_key. intros H Hr.
  destruct api_key as [key|]; simpl in H.
  2:{ inversion H; subst. discriminate. }
  destruct (truthy_str key) eqn:Hk; simpl in H.
  2:{ inversion H; subst. discriminate. }
  destruct verdict.
  2:{ inversion H; subst. discriminate. }
  destruct (session_by_token db token) eqn:Hfree.
  { inversion H; subst. discriminate. }
  inversion H; subst. simpl in Hr. inversion Hr; subst.
  exists key. apply truthy_str_true in Hk. repeat split; auto.
Qed.
End SessionStoreFacts.

(** C1.  Round trip of the session store: when the provider accepts a
    non-empty credential and the drawn token is not taken, registration
    answers with that token; and whenever registration answers with a token,
    the provider had accepted the credential and resolving the token
    afterwards returns exactly the credential that was registered.  Fernet
    is assumed to decrypt what it encrypted, and [secrets.token_urlsafe(32)]
    to return a non-empty string. *)
Theorem issue_then_resolve_roundtrip (F : Fernet) (db db' : DB) (key token : string)
    (verdict : probe) (iv : nonce F) (t_created t_used now' : datetime) (r : response) :
  Fernet_correct F ->
  token <> "" ->
  update_api_key F db (Some key) verdict token iv t_created t_used = (db', r) ->
  (verdict = ProbeOk -> key <> "" -> session_by_token db token = None ->
   issued_session_id r = Some token) /\
  (forall t, issued_session_id r = Some t ->
     verdict = ProbeOk /\
     snd (get_api_key_from_session F db' (Some t) now') = Some key).
Proof.
  intros HF Htok H. split.
  - intros -> Hk Hfree. unfold update_api_key in H. simpl in H.
    apply truthy_str_true in Hk. rewrite Hk in H. simpl in H.
    rewrite Hfree in H. inversion H; subst. reflexivity.
  - intros t Ht.
    destruct (update_api_key_issued F _ _ _ _ _ _ _ _ _ _ H Ht)
      as (k & Hk & Hne & Hv & -> & Hfree & ->).
    inversion Hk; subst k. split; [exact Hv|].
    unfold get_api_key_from_session. simpl.
    apply truthy_str_true in Htok. rewrite Htok. simpl.
    unfold session_by_token in *. simpl. rewrite find_app_last, Hfree. simpl.
    rewrite String.eqb_refl. simpl. apply HF.
Qed.

Lemma Toy_cipher_correct : Fernet_correct Toy.cipher.
Proof. intros n p. reflexivity. Qed.

Lemma issue_then_resolve_roundtrip_witness :
  issued_session_id
    (snd (update_api_key Toy.cipher Toy.db (Some "AIza-2") ProbeOk "tok-2" tt 30 31))
    = Some "tok-2" /\
  snd (get_api_key_from_session Toy.cipher
         (fst (update_api_key Toy.cipher Toy.db (Some "AIza-2") ProbeOk "tok-2" tt 30 31))
         (Some "tok-2") 40) = Some "AIza-2".
Proof.
  assert (Htok : "tok-2" <> "") by discriminate.
  assert (Hkey : "AIza-2" <> "") by discriminate.
  destruct (issue_then_resolve_roundtrip Toy.cipher Toy.db _ "AIza-2" "tok-2" ProbeOk tt 30 31 40 _
              Toy_cipher_correct Htok eq_refl) as [Hissue Hresolve].
  split.
  - apply Hissue; [reflexivity | exact Hkey | reflexivity].
  - apply (Hresolve "tok-2"). reflexivity.
Defined.




(** C7.  When the provider's test call raises, because it rejects the
    credential or because the call itself fails, registration answers 400
    with an error body and the database is the one it started from: no
    session row is created.  (A missing or empty credential is answered 400
    before the provider is asked.) *)
Theorem rejected_credential_creates_no_session (F : Fernet) (db : DB)
    (api_key : option string) (msg token : string) (iv : nonce F)
    (t_created t_used : datetime) :
  update_api_key F db api_key (ProbeRaises msg) token iv t_created t_used =
    (db, Json 400 [("error", if truthy_opt truthy_str api_key then msg
                             else "API key is required")]) /\
  issued_session_id
    (snd (update_api_key F db api_key (ProbeRaises msg) token iv t_created t_used)) = None.
Proof.
  unfold update_api_key.
  destruct (truthy_opt truthy_str api_key); simpl; split; reflexivity.
Qed.

(** ** Stream Orchestrator *)

Section OrchestratorFacts.
Variable F : Fernet.

Lemma stream_chat_unauthorized (db : DB) (req : chat_request) (t_used t_chat t_msg : datetime) :
  truthy_opt truthy_str (snd (get_api_key_from_session F db (rq_session_id req) t_used)) = false ->
  stream_chat F db req t_used t_chat t_msg =
    (fst (get_api_key_from_session F db (rq_session_id req) t_used), Rejected unauthorized).
Proof.
  unfold stream_chat. intros H.
  destruct (get_api_key_from_session F db (rq_session_id req) t_used) as [db1 k].
  simpl in *. rewrite H. reflexivity.
Qed.

Lemma stream_chat_authorized (db : DB) (req : chat_request) (t_used t_chat t_msg : datetime)
    (key : string) :
  snd (get_api_key_from_session F db (rq_session_id req) t_used) = Some key ->
  key <> "" ->
  let db1 := fst (get_api_key_from_session F db (rq_session_id req) t_used) in
  let rc := resolve_chat db1 req t_chat in
  stream_chat F db req t_used t_chat t_msg =
    (save_user_message (fst rc) (snd rc) (get_default (rq_message req) "") t_msg,
     Streaming {| g_api_key := key;
                  g_full_prompt := full_prompt (get_default (rq_prompt req) "")
                                               (get_default (rq_message req) "");
                  g_chat := option_map Chat.id (snd rc) |}).
Proof.
  unfold stream_chat. intros H Hk.
  destruct (get_api_key_from_session F db (rq_session_id req) t_used) as [db1 k].
  simpl in *. subst k. simpl. apply truthy_str_true in Hk. rewrite Hk. simpl.
  destruct (resolve_chat db1 req t_chat) as [db2 chat]. reflexivity.
Qed.

(** Which chat a request resolves to depends on the Chat table only. *)
Lemma resolve_chat_same_chats (db db1 : DB) (req : chat_request) (now : datetime) :
  chats db1 = chats db ->
  snd (resolve_chat db1 req now) = snd (resolve_chat db req now).
Proof.
  intros E. unfold resolve_chat, chat_by_id. rewrite E.
  destruct (truthy_opt truthy_int (rq_chat_id req)); [reflexivity|].
  destruct (truthy_opt truthy_int (rq_prompt_id req)); reflexivity.
Qed.

Lemma resolve_chat_frame (db : DB) (req : chat_request) (now : datetime) :
  let db' := fst (resolve_chat db req now) in
  user_sessions db' = user_sessions db /\ prompts db' = prompts db /\
  messages db' = messages db.
Proof.
  unfold resolve_chat.
  destruct (truthy_opt truthy_int (rq_chat_id req)); [simpl; tauto|].
  destruct (truthy_opt truthy_int (rq_prompt_id req)); simpl; tauto.
Qed.

Lemma resolve_chat_none (db : DB) (req : chat_request) (now : datetime) :
  snd (resolve_chat db req now) = None -> fst (resolve_chat db req now) = db.
Proof.
  unfold resolve_chat.
  destruct (truthy_opt truthy_int (rq_chat_id req)); [reflexivity|].
  destruct (truthy_opt truthy_int (rq_prompt_id req)); [discriminate | reflexivity].
Qed.

(** The chat a request resolves to has a row when the generator looks its
    key up again. *)
Lemma resolve_chat_row (db : DB) (req : chat_request) (now : datetime) (c : Chat.t) :
  snd (resolve_chat db req now) = Some c ->
  exists c', chat_by_id (fst (resolve_chat db req now)) (Chat.id c) = Some c' /\
             Chat.id c' = Chat.id c.
Proof.
  unfold resolve_chat, chat_by_id.
  destruct (truthy_opt truthy_int (rq_chat_id req)); simpl.
  - intros H. pose proof (find_holds _ _ _ H) as Hid. apply Z.eqb_eq in Hid.
    destruct (find (fun c0 => Chat.id c0 =? Chat.id c) (chats db)) as [c'|] eqn:E.
    + exists c'. split; [reflexivity|]. apply find_holds in E. now apply Z.eqb_eq in E.
    + apply find_some in H. destruct H as [Hin _].
      apply (find_none _ _ E) in Hin. rewrite Z.eqb_refl in Hin. discriminate.
  - destruct (truthy_opt truthy_int (rq_prompt_id req)); simpl; [|discriminate].
    intros H. inversion H; subst c; clear H. simpl.
    rewrite find_app_last. simpl. rewrite Z.eqb_refl.
    destruct (find _ (chats db)) as [c'|] eqn:E.
    + exists c'. split; [reflexivity|]. apply find_holds in E. now apply Z.eqb_eq in E.
    + eexists. split; reflexivity.
Qed.

Example relay_skips_empty_text :
  relay ["Hel"; ""; "lo"] "" = ("Hello", [sse "Hel"; sse "lo"]).
Proof. reflexivity. Qed.

(** A stream that raises after a fragment: the fragment was relayed, the
    user row stays, no assistant row is written. *)
Example raised_stream_keeps_user_row :
  let sv := serve_stream_chat Toy.cipher Toy.broken Toy.db Toy.continue_chat 30 31 32 33 in
  sv_response sv = EventStream [sse "Hel"] /\
  sv_raised sv = true /\
  messages (sv_db sv) =
    [Toy.first_message; new_message Toy.db 1 "user" "and in Spanish?" 32].
Proof. vm_compute. repeat split. Qed.

(** A request with a session that resolves: what is served, step by step. *)
Lemma serve_authorized (genai : string -> string -> provider_stream) (db : DB)
    (req : chat_request) (t_used t_chat t_msg t_reply : datetime) (key : string) :
  snd (get_api_key_from_session F db (rq_session_id req) t_used) = Some key ->
  key <> "" ->
  let db1 := fst (get_api_key_from_session F db (rq_session_id req) t_used) in
  let rc := resolve_chat db1 req t_chat in
  let p := full_prompt (get_default (rq_prompt req) "") (get_default (rq_message req) "") in
  let out :=
    generate (save_user_message (fst rc) (snd rc) (get_default (rq_message req) "") t_msg)
      {| g_api_key := key; g_full_prompt := p; g_chat := option_map Chat.id (snd rc) |}
      (genai key p) t_reply in
  serve_stream_chat F genai db req t_used t_chat t_msg t_reply =
    {| sv_db := dr_db out;
       sv_response := EventStream (dr_events out);
       sv_provider_calls := [(key, p)];
       sv_raised := dr_raised out |}.
Proof.
  intros H Hk. unfold serve_stream_chat.
  rewrite (stream_chat_authorized _ _ _ _ _ _ H Hk). reflexivity.
Qed.

Lemma serve_unauthorized (genai : string -> string -> provider_stream) (db : DB)
    (req : chat_request) (t_used t_chat t_msg t_reply : datetime) :
  truthy_opt truthy_str (snd (get_api_key_from_session F db (rq_session_id req) t_used)) = false ->
  serve_stream_chat F genai db req t_used t_chat t_msg t_reply =
    {| sv_db := fst (get_api_key_from_session F db (rq_session_id req) t_used);
       sv_response := unauthorized;
       sv_provider_calls := [];
       sv_raised := false |}.
Proof.
  intros H. unfold serve_stream_chat. rewrite (stream_chat_unauthorized _ _ _ _ _ H).
  reflexivity.
Qed.

(** Draining a generator that holds no chat writes nothing. *)
Lemma generate_no_chat (db : DB) (key p : string) (response : provider_stream)
    (now : datetime) :
  let out := generate db {| g_api_key := key; g_full_prompt := p; g_chat := None |} response now in
  dr_db out = db /\ dr_events out = snd (relay (chunks response) "").
Proof.
  unfold generate. simpl.
  destruct (relay (chunks response) "") as [total events]. simpl.
  destruct (ending response); simpl; split; reflexivity.
Qed.
End OrchestratorFacts.

Lemma new_message_same_rows (db db' : DB) (pk : Z) (role content : string) (now : datetime) :
  messages db' = messages db ->
  new_message db' pk role content now = new_message db pk role content now.
Proof. intros E. unfold new_message. rewrite E. reflexivity. Qed.

(** A turn on a resolved chat whose provider stream runs to its end: every
    non-empty fragment is relayed, the user row is written, and the
    assistant row follows it when some text was accumulated. *)
Lemma serve_completed_turn (F : Fernet) (genai : string -> string -> provider_stream)
    (db : DB) (req : chat_request) (t_used t_chat t_msg t_reply : datetime)
    (key : string) (c : Chat.t) (texts : list string) :
  snd (get_api_key_from_session F db (rq_session_id req) t_used) = Some key ->
  key <> "" ->
  snd (resolve_chat db req t_chat) = Some c ->
  genai key (full_prompt (get_default (rq_prompt req) "") (get_default (rq_message req) ""))
    = {| chunks := texts; ending := Exhausted |} ->
  let sv := serve_stream_chat F genai db req t_used t_chat t_msg t_reply in
  let user_row := new_message db (Chat.id c) "user" (get_default (rq_message req) "") t_msg in
  let ai_response := fst (relay texts "") in
  sv_response sv = EventStream (snd (relay texts "")) /\
  sv_raised sv = false /\
  messages (sv_db sv) =
    (messages db ++ user_row ::
       (if truthy_str ai_response
        then [new_message (add_message db user_row) (Chat.id c) "assistant" ai_response t_reply]
        else []))%list.
Proof.
  intros Hkey Hne Hc Hgen. cbv zeta.
  rewrite (serve_authorized F genai db req _ _ _ _ key Hkey Hne). cbv zeta.
  destruct (resolve_frame F db (rq_session_id req) t_used) as (_ & Hchats & Hmsgs & _).
  set (db1 := fst (get_api_key_from_session F db (rq_session_id req) t_used)) in *.
  rewrite <- (resolve_chat_same_chats db db1 req t_chat Hchats) in Hc.
  destruct (resolve_chat_row db1 req t_chat c Hc) as (c' & Hrow & Hid).
  destruct (resolve_chat_frame db1 req t_chat) as (_ & _ & Hm2).
  set (db2 := fst (resolve_chat db1 req t_chat)) in *.
  rewrite Hc. simpl save_user_message. simpl option_map.
  rewrite Hgen. unfold generate. simpl chunks. simpl ending. simpl g_chat.
  destruct (relay texts "") as [total events]. simpl fst. simpl snd.
  assert (Eu : new_message db2 (Chat.id c) "user" (get_default (rq_message req) "") t_msg
               = new_message db (Chat.id c) "user" (get_default (rq_message req) "") t_msg).
  { apply new_message_same_rows. congruence. }
  rewrite Eu.
  destruct (truthy_str total); simpl.
  - unfold chat_by_id in *. simpl. rewrite Hrow. simpl. rewrite Hid.
    repeat split.
    rewrite Hm2, Hmsgs, <- app_assoc. simpl. do 3 f_equal.
    apply new_message_same_rows. simpl. congruence.
  - repeat split. congruence.
Qed.

(** C5.  On a resolved chat, existing or just created, a provider stream of
    the fragments "Hel", "lo" reaches the caller as exactly two events
    carrying "Hel" then "lo", and once the stream has ended the Message
    table has gained the user row followed by one assistant row of that chat
    with content "Hello". *)
Theorem hello_relayed_then_persisted (F : Fernet)
    (genai : string -> string -> provider_stream) (db : DB) (req : chat_request)
    (t_used t_chat t_msg t_reply : datetime) (key : string) (c : Chat.t) :
  snd (get_api_key_from_session F db (rq_session_id req) t_used) = Some key ->
  key <> "" ->
  snd (resolve_chat db req t_chat) = Some c ->
  genai key (full_prompt (get_default (rq_prompt req) "") (get_default (rq_message req) ""))
    = {| chunks := ["Hel"; "lo"]; ending := Exhausted |} ->
  let sv := serve_stream_chat F genai db req t_used t_chat t_msg t_reply in
  let user_row := new_message db (Chat.id c) "user" (get_default (rq_message req) "") t_msg in
  let assistant_row :=
    {| Message.id := next_id (map Message.id (messages db ++ [user_row])%list);
       Message.chat_id := Chat.id c;
       Message.role := "assistant";
       Message.content := "Hello";
       Message.created_at := t_reply |} in
  sv_response sv = EventStream ["data: Hel" ++ nl ++ nl; "data: lo" ++ nl ++ nl] /\
  sv_raised sv = false /\
  messages (sv_db sv) = (messages db ++ [user_row; assistant_row])%list.
Proof.
  intros Hkey Hne Hc Hgen.
  exact (serve_completed_turn F genai db req t_used t_chat t_msg t_reply key c
           ["Hel"; "lo"] Hkey Hne Hc Hgen).
Qed.

Lemma hello_relayed_then_persisted_witness :
  let sv := serve_stream_chat Toy.cipher Toy.hello Toy.db Toy.continue_chat 30 31 32 33 in
  let user_row := new_message Toy.db 1 "user" "and in Spanish?" 32 in
  let assistant_row :=
    {| Message.id := next_id (map Message.id (messages Toy.db ++ [user_row])%list);
       Message.chat_id := 1;
       Message.role := "assistant";
       Message.content := "Hello";
       Message.created_at := 33 |} in
  sv_response sv = EventStream ["data: Hel" ++ nl ++ nl; "data: lo" ++ nl ++ nl] /\
  sv_raised sv = false /\
  messages (sv_db sv) = (messages Toy.db ++ [user_row; assistant_row])%list.
Proof.
  apply (hello_relayed_then_persisted Toy.cipher Toy.hello Toy.db Toy.continue_chat
           30 31 32 33 "AIza-key" Toy.chat).
  - reflexivity.
  - discriminate.
  - reflexivity.
  - reflexivity.
Defined.

(** A turn on a resolved chat whose stream ends without a chunk, in terms
    of the row the handler builds. *)
Lemma silent_turn_rows (F : Fernet)
    (genai : string -> string -> provider_stream) (db : DB) (req : chat_request)
    (t_used t_chat t_msg t_reply : datetime) (key : string) (c : Chat.t) :
  snd (get_api_key_from_session F db (rq_session_id req) t_used) = Some key ->
  key <> "" ->
  snd (resolve_chat db req t_chat) = Some c ->
  genai key (full_prompt (get_default (rq_prompt req) "") (get_default (rq_message req) ""))
    = {| chunks := []; ending := Exhausted |} ->
  let sv := serve_stream_chat F genai db req t_used t_chat t_msg t_reply in
  let user_row := new_message db (Chat.id c) "user" (get_default (rq_message req) "") t_msg in
  messages (fst (stream_chat F db req t_used t_chat t_msg)) = (messages db ++ [user_row])%list /\
  messages (sv_db sv) = (messages db ++ [user_row])%list /\
  sv_response sv = EventStream [] /\
  sv_raised sv = false.
Proof.
  intros Hkey Hne Hc Hgen. cbv zeta.
  destruct (serve_completed_turn F genai db req t_used t_chat t_msg t_reply key c
              [] Hkey Hne Hc Hgen) as (Hr & Hraised & Hm).
  simpl in Hr, Hm. repeat split; auto.
  rewrite (stream_chat_authorized F db req _ _ _ key Hkey Hne). cbv zeta. simpl fst.
  destruct (resolve_frame F db (rq_session_id req) t_used) as (_ & Hchats & Hmsgs & _).
  set (db1 := fst (get_api_key_from_session F db (rq_session_id req) t_used)) in *.
  rewrite (resolve_chat_same_chats db db1 req t_chat Hchats), Hc.
  destruct (resolve_chat_frame db1 req t_chat) as (_ & _ & Hm2).
  simpl. rewrite Hm2, Hmsgs. do 2 f_equal.
  apply new_message_same_rows. congruence.
Qed.

(** C6.  On a resolved chat, existing or just created, a provider stream
    that ends without a single chunk leaves the turn with its user row only:
    the Message table gains exactly one row, of that chat, with role "user",
    the request's message as content, the next key and the handler's clock
    reading; the handler wrote it before the provider was called; there is
    no assistant row; and the response is an event stream with no event
    that did not raise. *)
Theorem silent_stream_persists_user_only (F : Fernet)
    (genai : string -> string -> provider_stream) (db : DB) (req : chat_request)
    (t_used t_chat t_msg t_reply : datetime) (key : string) (c : Chat.t) :
  snd (get_api_key_from_session F db (rq_session_id req) t_used) = Some key ->
  key <> "" ->
  snd (resolve_chat db req t_chat) = Some c ->
  genai key (full_prompt (get_default (rq_prompt req) "") (get_default (rq_message req) ""))
    = {| chunks := []; ending := Exhausted |} ->
  let sv := serve_stream_chat F genai db req t_used t_chat t_msg t_reply in
  let user_row :=
    {| Message.id := 1 + fold_right Z.max 0 (map Message.id (messages db));
       Message.chat_id := Chat.id c;
       Message.role := "user";
       Message.content := match rq_message req with Some text => text | None => "" end;
       Message.created_at := t_msg |} in
  messages (fst (stream_chat F db req t_used t_chat t_msg)) = (messages db ++ [user_row])%list /\
  messages (sv_db sv) = (messages db ++ [user_row])%list /\
  sv_response sv = EventStream [] /\
  sv_raised sv = false.
Proof.
  intros Hkey Hne Hc Hgen.
  exact (silent_turn_rows F genai db req t_used t_chat t_msg t_reply key c Hkey Hne Hc Hgen).
Qed.

Lemma silent_stream_persists_user_only_witness :
  let sv := serve_stream_chat Toy.cipher Toy.silent Toy.db Toy.start_chat 30 31 32 33 in
  let user_row :=
    {| Message.id := 2;
       Message.chat_id := 2;
       Message.role := "user";
       Message.content := "good morning";
       Message.created_at := 32 |} in
  messages (fst (stream_chat Toy.cipher Toy.db Toy.start_chat 30 31 32)) =
    [Toy.first_message; user_row] /\
  messages (sv_db sv) = [Toy.first_message; user_row] /\
  sv_response sv = EventStream [] /\
  sv_raised sv = false.
Proof.
  apply (silent_stream_persists_user_only Toy.cipher Toy.silent Toy.db Toy.start_chat
           30 31 32 33 "AIza-key"
           Toy.second_chat).
  - reflexivity.
  - discriminate.
  - reflexivity.
  - reflexivity.
Defined.

(** Draining a generator appends at most one row to the Message table and
    writes nowhere else. *)
Lemma generate_frame (db : DB) (g : generator) (response : provider_stream) (now : datetime) :
  let db' := dr_db (generate db g response now) in
  user_sessions db' = user_sessions db /\ prompts db' = prompts db /\
  chats db' = chats db /\
  exists rest, messages db' = (messages db ++ rest)%list /\ (length rest <= 1)%nat.
Proof.
  unfold generate.
  assert (Hsame : exists rest, messages db = (messages db ++ rest)%list /\ (length rest <= 1)%nat).
  { exists []. rewrite app_nil_r. split; [reflexivity | simpl; lia]. }
  destruct (relay (chunks response) "") as [total events].
  destruct (ending response); [|simpl; tauto].
  destruct (g_chat g) as [pk|]; [|simpl; tauto].
  destruct (truthy_str total); [|simpl; tauto].
  destruct (chat_by_id db pk); [|simpl; tauto].
  simpl. repeat split. eexists. split; [reflexivity | simpl; lia].
Qed.

Lemma resolve_chat_unresolved (db : DB) (req : chat_request) (now : datetime) :
  snd (resolve_chat db req now) = None <->
  (truthy_opt truthy_int (rq_chat_id req) = true /\
   chat_by_id db (get_default (rq_chat_id req) 0) = None) \/
  (truthy_opt truthy_int (rq_chat_id req) = false /\
   truthy_opt truthy_int (rq_prompt_id req) = false).
Proof.
  unfold resolve_chat.
  destruct (truthy_opt truthy_int (rq_chat_id req)); simpl.
  - split; [tauto | intros [[_ H]|[H _]]; [exact H | discriminate]].
  - destruct (truthy_opt truthy_int (rq_prompt_id req)); simpl.
    + split; [discriminate | intros [[H _]|[_ H]]; discriminate].
    + split; [tauto | reflexivity].
Qed.

(** A request with a session that resolves and no chat: the provider is
    called, its fragments are relayed and the database stays as session
    resolution left it. *)
Lemma serve_unresolved (F : Fernet) (genai : string -> string -> provider_stream)
    (db : DB) (req : chat_request) (t_used t_chat t_msg t_reply : datetime) (key : string) :
  snd (get_api_key_from_session F db (rq_session_id req) t_used) = Some key ->
  key <> "" ->
  snd (resolve_chat db req t_chat) = None ->
  let sv := serve_stream_chat F genai db req t_used t_chat t_msg t_reply in
  let p := full_prompt (get_default (rq_prompt req) "") (get_default (rq_message req) "") in
  sv_db sv = fst (get_api_key_from_session F db (rq_session_id req) t_used) /\
  sv_response sv = EventStream (snd (relay (chunks (genai key p)) "")) /\
  sv_provider_calls sv = [(key, p)].
Proof.
  intros Hkey Hne Hc. cbv zeta.
  rewrite (serve_authorized F genai db req _ _ _ _ key Hkey Hne). cbv zeta.
  destruct (resolve_frame F db (rq_session_id req) t_used) as (_ & Hchats & _).
  set (db1 := fst (get_api_key_from_session F db (rq_session_id req) t_used)) in *.
  rewrite <- (resolve_chat_same_chats db db1 req t_chat Hchats) in Hc.
  rewrite Hc, (resolve_chat_none db1 req t_chat Hc). simpl.
  destruct (generate_no_chat db1 key
              (full_prompt (get_default (rq_prompt req) "") (get_default (rq_message req) ""))
              (genai key (full_prompt (get_default (rq_prompt req) "")
                                      (get_default (rq_message req) ""))) t_reply)
    as [Hdb Hev].
  rewrite Hdb, Hev. repeat split.
Qed.

Lemma api_key_cases (api_key : option string) :
  truthy_opt truthy_str api_key = false \/ exists key, api_key = Some key /\ key <> "".
Proof.
  destruct api_key as [key|]; [|left; reflexivity].
  destruct (truthy_str key) eqn:E.
  - right. exists key. split; [reflexivity|]. now apply truthy_str_true.
  - left. exact E.
Qed.

(** The events of the relay loop, spelled out: one per non-empty fragment,
    the fragment between "data: " and a blank line. *)
Lemma relay_events (texts : list string) (acc : string) :
  snd (relay texts acc) =
  map (fun text => ("data: " ++ text ++ nl ++ nl)%string)
      (filter (fun text => negb (text =? "")%string) texts).
Proof.
  revert acc. induction texts as [|text rest IH]; intros acc; simpl; [reflexivity|].
  unfold truthy_str. destruct (negb (text =? "")%string).
  - specialize (IH (acc ++ text)%string).
    destruct (relay rest (acc ++ text)) as [total events]. simpl in *. now rewrite IH.
  - apply IH.
Qed.

(** Whatever way the generator ends, it has yielded the events of the
    fragments it received. *)
Lemma generate_events (db : DB) (g : generator) (stream : provider_stream) (now : datetime) :
  dr_events (generate db g stream now) = snd (relay (chunks stream) "").
Proof.
  unfold generate. destruct (relay (chunks stream) "") as [total events]. simpl.
  destruct (ending stream); [|reflexivity].
  destruct (g_chat g) as [pk|]; [|reflexivity].
  destruct (truthy_str total); [|reflexivity].
  destruct (chat_by_id db pk); reflexivity.
Qed.

Lemma full_prompt_spelled (prompt_text user_input : string) :
  full_prompt prompt_text user_input =
  if (prompt_text =? "")%string then user_input
  else (prompt_text ++ nl ++ nl ++ "User: " ++ user_input)%string.
Proof.
  unfold full_prompt, truthy_str. destruct (prompt_text =? "")%string; reflexivity.
Qed.

(** What session resolution returns, case by case. *)
Lemma resolve_returns (F : Fernet) (db : DB) (header : option string) (now : datetime)
    (key : string) :
  snd (get_api_key_from_session F db header now) = Some key <->
  exists sid s,
    header = Some sid /\ sid <> "" /\ session_by_token db sid = Some s /\
    decrypt F (UserSession.encrypted_api_key s) = Some key.
Proof.
  unfold get_api_key_from_session. split.
  - destruct header as [sid|]; simpl; [|discriminate].
    destruct (truthy_str sid) eqn:E; simpl; [|discriminate].
    destruct (session_by_token db sid) as [s|] eqn:Hs; simpl; [|discriminate].
    intros H. exists sid, s. apply truthy_str_true in E. auto.
  - intros (sid & s & -> & Hne & Hs & Hd). simpl.
    apply truthy_str_true in Hne. rewrite Hne. simpl. rewrite Hs. exact Hd.
Qed.

(** The state in which the generator of an authorized turn on a resolved
    chat starts: the user row is in, the chat has its row. *)
Lemma turn_ready (F : Fernet) (db : DB) (req : chat_request)
    (t_used t_chat t_msg : datetime) (key : string) (c : Chat.t) :
  snd (get_api_key_from_session F db (rq_session_id req) t_used) = Some key ->
  key <> "" ->
  snd (resolve_chat db req t_chat) = Some c ->
  let user_row := new_message db (Chat.id c) "user" (get_default (rq_message req) "") t_msg in
  exists db3 c',
    stream_chat F db req t_used t_chat t_msg =
      (db3, Streaming {| g_api_key := key;
                         g_full_prompt := full_prompt (get_default (rq_prompt req) "")
                                                      (get_default (rq_message req) "");
                         g_chat := Some (Chat.id c) |}) /\
    messages db3 = (messages db ++ [user_row])%list /\
    chat_by_id db3 (Chat.id c) = Some c' /\ Chat.id c' = Chat.id c.
Proof.
  intros Hkey Hne Hc. cbv zeta.
  rewrite (stream_chat_authorized F db req _ _ _ key Hkey Hne). cbv zeta.
  destruct (resolve_frame F db (rq_session_id req) t_used) as (_ & Hchats & Hmsgs & _).
  set (db1 := fst (get_api_key_from_session F db (rq_session_id req) t_used)) in *.
  rewrite <- (resolve_chat_same_chats db db1 req t_chat Hchats) in Hc.
  destruct (resolve_chat_row db1 req t_chat c Hc) as (c' & Hrow & Hid).
  destruct (resolve_chat_frame db1 req t_chat) as (_ & _ & Hm2).
  rewrite Hc. simpl. eexists. exists c'. split; [reflexivity|].
  simpl. split; [|split; [exact Hrow | exact Hid]].
  rewrite Hm2, Hmsgs. do 2 f_equal. apply new_message_same_rows. congruence.
Qed.

(** C2, as stated, fails: a request whose message is the empty string, on a
    valid session, is answered with the provider's stream; a chat is
    created, a user row with empty content and the assistant row are
    written, and the provider is called. *)
Lemma empty_message_is_served :
  get_default (rq_message Toy.empty_message) "" = "" /\
  let sv := serve_stream_chat Toy.cipher Toy.hello Toy.db Toy.empty_message 30 31 32 33 in
  sv_response sv = EventStream ["data: Hel" ++ nl ++ nl; "data: lo" ++ nl ++ nl] /\
  sv_provider_calls sv = [("AIza-key", "Translate to French." ++ nl ++ nl ++ "User: ")] /\
  chats (sv_db sv) = [Toy.chat; Toy.second_chat] /\
  messages (sv_db sv) =
    [Toy.first_message;
     {| Message.id := 2; Message.chat_id := 2; Message.role := "user";
        Message.content := ""; Message.created_at := 32 |};
     {| Message.id := 3; Message.chat_id := 2; Message.role := "assistant";
        Message.content := "Hello"; Message.created_at := 33 |}].
Proof. vm_compute. repeat split. Qed.

(** C2, amended.  An empty user message is not a ground for rejection; the
    request is served like any other.  It is answered 401 at once, with no
    Chat created, no Message written and no provider call, when its session
    does not resolve.  With a session that resolves, and identifiers SQLite
    can hold, the response is the event stream of the provider's fragments,
    the provider is called once, with the prompt text followed by a blank
    line and "User: " (or with the empty string when the request has no
    prompt text), and when a chat is resolved the handler has appended to
    the Message table, before that call, one row of that chat with role
    "user" and empty content, which stays first among the rows the request
    adds. *)
Theorem empty_message_served_like_any_other (F : Fernet)
    (genai : string -> string -> provider_stream) (db : DB) (req : chat_request)
    (t_used t_chat t_msg t_reply : datetime) :
  get_default (rq_message req) "" = "" ->
  let sv := serve_stream_chat F genai db req t_used t_chat t_msg t_reply in
  let api_key := snd (get_api_key_from_session F db (rq_session_id req) t_used) in
  let prompt_text := match rq_prompt req with Some text => text | None => "" end in
  let p := if (prompt_text =? "")%string then ""
           else (prompt_text ++ nl ++ nl ++ "User: ")%string in
  (truthy_opt truthy_str api_key = false ->
     sv_response sv =
       Json 401 [("error",
         "Invalid or expired session. Please set your API key in settings.")] /\
     sv_provider_calls sv = [] /\
     chats (sv_db sv) = chats db /\ messages (sv_db sv) = messages db) /\
  (forall key, api_key = Some key -> key <> "" -> bindable req ->
     sv_response sv =
       EventStream (map (fun text => ("data: " ++ text ++ nl ++ nl)%string)
                        (filter (fun text => negb (text =? "")%string)
                                (chunks (genai key p)))) /\
     sv_provider_calls sv = [(key, p)] /\
     (forall c, snd (resolve_chat db req t_chat) = Some c ->
        let user_row :=
          {| Message.id := 1 + fold_right Z.max 0 (map Message.id (messages db));
             Message.chat_id := Chat.id c;
             Message.role := "user";
             Message.content := "";
             Message.created_at := t_msg |} in
        messages (fst (stream_chat F db req t_used t_chat t_msg)) =
          (messages db ++ [user_row])%list /\
        exists rest, messages (sv_db sv) = (messages db ++ user_row :: rest)%list)).
Proof.
  intros Hempty. cbv zeta. split.
  - intros Hno. rewrite (serve_unauthorized F genai db req _ _ _ _ Hno). simpl.
    destruct (resolve_frame F db (rq_session_id req) t_used) as (_ & Hchats & Hmsgs & _).
    split; [reflexivity|]. split; [reflexivity|]. split; assumption.
  - intros key Hkey Hne _.
    pose proof (serve_authorized F genai db req t_used t_chat t_msg t_reply key Hkey Hne)
      as Hsv. cbv zeta in Hsv.
    rewrite Hempty in Hsv.
    assert (Hp : full_prompt (get_default (rq_prompt req) "") "" =
                 if (get_default (rq_prompt req) "" =? "")%string then ""
                 else (get_default (rq_prompt req) "" ++ nl ++ nl ++ "User: ")%string).
    { rewrite full_prompt_spelled. destruct (get_default (rq_prompt req) "" =? "")%string;
        [reflexivity|]. reflexivity. }
    rewrite Hp in Hsv.
    split; [rewrite Hsv; simpl; now rewrite generate_events, relay_events|].
    split; [rewrite Hsv; reflexivity|].
    intros c Hc.
    destruct (turn_ready F db req t_used t_chat t_msg key c Hkey Hne Hc)
      as (db3 & c' & Hsc & Hm3 & _).
    rewrite Hempty in Hsc, Hm3.
    split; [rewrite Hsc; exact Hm3|].
    unfold serve_stream_chat. rewrite Hsc. cbv iota beta. simpl sv_db.
    match goal with |- context [generate ?d ?g ?st ?t] =>
      destruct (generate_frame d g st t) as (_ & _ & _ & rest & Hrest & _) end.
    exists rest. rewrite Hrest, Hm3, <- app_assoc. reflexivity.
Qed.

Lemma empty_message_served_like_any_other_witness :
  let sv := serve_stream_chat Toy.cipher Toy.hello Toy.db Toy.empty_message 30 31 32 33 in
  let user_row :=
    {| Message.id := 2; Message.chat_id := 2; Message.role := "user";
       Message.content := ""; Message.created_at := 32 |} in
  sv_response sv = EventStream ["data: Hel" ++ nl ++ nl; "data: lo" ++ nl ++ nl] /\
  sv_provider_calls sv = [("AIza-key", "Translate to French." ++ nl ++ nl ++ "User: ")] /\
  messages (fst (stream_chat Toy.cipher Toy.db Toy.empty_message 30 31 32)) =
    [Toy.first_message; user_row] /\
  exists rest, messages (sv_db sv) = Toy.first_message :: user_row :: rest.
Proof.
  destruct (empty_message_served_like_any_other Toy.cipher Toy.hello Toy.db
              Toy.empty_message 30 31 32 33 eq_refl) as [_ H].
  assert (Hne : "AIza-key" <> "") by discriminate.
  assert (Hbind : bindable Toy.empty_message).
  { unfold bindable, sqlite_int. simpl. lia. }
  destruct (H "AIza-key" eq_refl Hne Hbind) as (Hr & Hcalls & Hrows).
  destruct (Hrows Toy.second_chat eq_refl) as [Hfirst Hall].
  split; [exact Hr|]. split; [exact Hcalls|]. split; [exact Hfirst | exact Hall].
Defined.

(** C3, as stated, fails: a request naming chat 7, which does not exist, on
    a valid session is not refused; the provider is called and its two
    fragments are streamed to the caller. *)
Lemma unknown_chat_is_streamed :
  rq_chat_id Toy.unknown_chat = Some 7 /\
  chat_by_id Toy.db 7 = None /\
  let sv := serve_stream_chat Toy.cipher Toy.hello Toy.db Toy.unknown_chat 30 31 32 33 in
  sv_response sv = EventStream ["data: Hel" ++ nl ++ nl; "data: lo" ++ nl ++ nl] /\
  sv_provider_calls sv = [("AIza-key", "hi there")].
Proof. vm_compute. repeat split. Qed.

(** C3, amended.  A request that supplies a non-zero chat identifier, one
    SQLite can hold, matching no Chat creates no Chat and writes no Message,
    but it is not refused for it: unless the session fails to resolve (401,
    no provider call), the provider is called once with the request's
    prompt, and every non-empty fragment it emits reaches the caller as an
    event "data: <fragment>" followed by a blank line, in order. *)
Theorem unknown_chat_streams_without_persisting (F : Fernet)
    (genai : string -> string -> provider_stream) (db : DB) (req : chat_request)
    (t_used t_chat t_msg t_reply : datetime) (pk : Z) :
  rq_chat_id req = Some pk ->
  pk <> 0 ->
  sqlite_int pk ->
  chat_by_id db pk = None ->
  let sv := serve_stream_chat F genai db req t_used t_chat t_msg t_reply in
  let api_key := snd (get_api_key_from_session F db (rq_session_id req) t_used) in
  let prompt_text := match rq_prompt req with Some text => text | None => "" end in
  let user_input := match rq_message req with Some text => text | None => "" end in
  let p := if (prompt_text =? "")%string then user_input
           else (prompt_text ++ nl ++ nl ++ "User: " ++ user_input)%string in
  chats (sv_db sv) = chats db /\
  messages (sv_db sv) = messages db /\
  (truthy_opt truthy_str api_key = false ->
     sv_response sv =
       Json 401 [("error",
         "Invalid or expired session. Please set your API key in settings.")] /\
     sv_provider_calls sv = []) /\
  (forall key, api_key = Some key -> key <> "" ->
     sv_response sv =
       EventStream (map (fun text => ("data: " ++ text ++ nl ++ nl)%string)
                        (filter (fun text => negb (text =? "")%string)
                                (chunks (genai key p)))) /\
     sv_provider_calls sv = [(key, p)]).
Proof.
  intros Hid Hnz _ Hmiss. cbv zeta.
  destruct (resolve_frame F db (rq_session_id req) t_used) as (_ & Hchats & Hmsgs & _).
  assert (Hnone : snd (resolve_chat db req t_chat) = None).
  { apply resolve_chat_unresolved. left. rewrite Hid. simpl. split; [|exact Hmiss].
    unfold truthy_int. apply negb_true_iff. now apply Z.eqb_neq. }
  destruct (api_key_cases (snd (get_api_key_from_session F db (rq_session_id req) t_used)))
    as [Hno | (key & Hkey & Hne)].
  - rewrite (serve_unauthorized F genai db req _ _ _ _ Hno). simpl.
    split; [exact Hchats|]. split; [exact Hmsgs|]. split; [split; reflexivity|].
    intros k Hk Hk'. rewrite Hk in Hno. simpl in Hno.
    apply truthy_str_false in Hno. contradiction.
  - destruct (serve_unresolved F genai db req t_used t_chat t_msg t_reply key Hkey Hne Hnone)
      as (Hdb & Hr & Hcalls).
    rewrite full_prompt_spelled in Hr, Hcalls. rewrite relay_events in Hr.
    rewrite Hdb. split; [exact Hchats|]. split; [exact Hmsgs|]. split.
    + intros Hno. rewrite Hkey in Hno. simpl in Hno.
      apply truthy_str_false in Hno. contradiction.
    + intros k Hk _. rewrite Hkey in Hk. inversion Hk; subst k. split; assumption.
Qed.

Lemma unknown_chat_streams_without_persisting_witness :
  let sv := serve_stream_chat Toy.cipher Toy.hello Toy.db Toy.unknown_chat 30 31 32 33 in
  chats (sv_db sv) = chats Toy.db /\
  messages (sv_db sv) = messages Toy.db /\
  sv_response sv = EventStream ["data: Hel" ++ nl ++ nl; "data: lo" ++ nl ++ nl] /\
  sv_provider_calls sv = [("AIza-key", "hi there")].
Proof.
  assert (Hnz : 7 <> 0) by discriminate.
  assert (Hint : sqlite_int 7) by (unfold sqlite_int; lia).
  assert (Hne : "AIza-key" <> "") by discriminate.
  destruct (unknown_chat_streams_without_persisting Toy.cipher Toy.hello Toy.db
              Toy.unknown_chat 30 31 32 33 7 eq_refl Hnz Hint eq_refl)
    as (Hchats & Hmsgs & _ & Hstream).
  destruct (Hstream "AIza-key" eq_refl Hne) as [Hr Hcalls].
  repeat split; assumption.
Defined.




(** C10, as stated, fails: a request of a valid session naming chat 7,
    which does not exist, does not leave the store unchanged.  The session
    row it presented has [last_used] rewritten, from 10 to 30 here, by the
    session lookup the request starts with. *)
Lemma unresolved_chat_rewrites_last_used :
  rq_chat_id Toy.unknown_chat = Some 7 /\
  chat_by_id Toy.db 7 = None /\
  snd (get_api_key_from_session Toy.cipher Toy.db (rq_session_id Toy.unknown_chat) 30)
    = Some "AIza-key" /\
  let sv := serve_stream_chat Toy.cipher Toy.hello Toy.db Toy.unknown_chat 30 31 32 33 in
  user_sessions Toy.db =
    [{| UserSession.id := 1; UserSession.session_id := "tok-1";
        UserSession.encrypted_api_key := "gAAAAAAIza-key";
        UserSession.created_at := 10; UserSession.last_used := 10 |}] /\
  user_sessions (sv_db sv) =
    [{| UserSession.id := 1; UserSession.session_id := "tok-1";
        UserSession.encrypted_api_key := "gAAAAAAIza-key";
        UserSession.created_at := 10; UserSession.last_used := 30 |}] /\
  sv_db sv <> Toy.db.
Proof.
  repeat split; try reflexivity.
  intros H. apply (f_equal user_sessions) in H. vm_compute in H. discriminate.
Qed.

(** C10, amended.  A request whose session resolves, whose identifiers
    SQLite can hold, and for which no chat is resolved, because its chat
    identifier matches no Chat or because it carries neither a chat nor a
    prompt identifier, still has the provider called once with its prompt
    and every non-empty fragment sent to the caller as an event
    "data: <fragment>" followed by a blank line, in order.  No Chat is
    created and no Message is written: the Prompt, Chat and Message tables
    are those the request found.  The store is not left unchanged, though:
    the session row the request presented has [last_used] set to the time
    of the lookup, and that is the only difference. *)
Theorem unresolved_chat_streams_and_only_refreshes_last_used (F : Fernet)
    (genai : string -> string -> provider_stream) (db : DB) (req : chat_request)
    (t_used t_chat t_msg t_reply : datetime) (key : string) :
  snd (get_api_key_from_session F db (rq_session_id req) t_used) = Some key ->
  key <> "" ->
  bindable req ->
  (truthy_opt truthy_int (rq_chat_id req) = true /\
   chat_by_id db (get_default (rq_chat_id req) 0) = None) \/
  (truthy_opt truthy_int (rq_chat_id req) = false /\
   truthy_opt truthy_int (rq_prompt_id req) = false) ->
  let sv := serve_stream_chat F genai db req t_used t_chat t_msg t_reply in
  let prompt_text := match rq_prompt req with Some text => text | None => "" end in
  let user_input := match rq_message req with Some text => text | None => "" end in
  let p := if (prompt_text =? "")%string then user_input
           else (prompt_text ++ nl ++ nl ++ "User: " ++ user_input)%string in
  sv_provider_calls sv = [(key, p)] /\
  sv_response sv =
    EventStream (map (fun text => ("data: " ++ text ++ nl ++ nl)%string)
                     (filter (fun text => negb (text =? "")%string)
                             (chunks (genai key p)))) /\
  prompts (sv_db sv) = prompts db /\
  chats (sv_db sv) = chats db /\
  messages (sv_db sv) = messages db /\
  exists sid s,
    rq_session_id req = Some sid /\
    session_by_token db sid = Some s /\
    user_sessions (sv_db sv) =
      map (fun row => if UserSession.id row =? UserSession.id s
                      then {| UserSession.id := UserSession.id row;
                              UserSession.session_id := UserSession.session_id row;
                              UserSession.encrypted_api_key := UserSession.encrypted_api_key row;
                              UserSession.created_at := UserSession.created_at row;
                              UserSession.last_used := t_used |}
                      else row)
          (user_sessions db) /\
    session_by_token (sv_db sv) sid =
      Some {| UserSession.id := UserSession.id s;
              UserSession.session_id := UserSession.session_id s;
              UserSession.encrypted_api_key := UserSession.encrypted_api_key s;
              UserSession.created_at := UserSession.created_at s;
              UserSession.last_used := t_used |}.
Proof.
  intros Hkey Hne _ Hnone. cbv zeta.
  apply (resolve_chat_unresolved db req t_chat) in Hnone.
  destruct (serve_unresolved F genai db req t_used t_chat t_msg t_reply key Hkey Hne Hnone)
    as (Hdb & Hr & Hcalls).
  rewrite full_prompt_spelled in Hr, Hcalls. rewrite relay_events in Hr.
  destruct (resolve_frame F db (rq_session_id req) t_used) as (Hp & Hchats & Hmsgs & _).
  rewrite Hdb. split; [exact Hcalls|]. split; [exact Hr|].
  split; [exact Hp|]. split; [exact Hchats|]. split; [exact Hmsgs|].
  apply resolve_returns in Hkey. destruct Hkey as (sid & s & Hh & Hsid & Hs & Hd).
  exists sid, s. split; [exact Hh|]. split; [exact Hs|].
  rewrite Hh. unfold get_api_key_from_session. simpl.
  apply truthy_str_true in Hsid. rewrite Hsid. simpl. rewrite Hs. simpl.
  split; [reflexivity|].
  unfold session_by_token in *. simpl.
  rewrite find_token_touch, Hs. simpl. unfold touch. rewrite Z.eqb_refl. reflexivity.
Qed.

Lemma unresolved_chat_streams_and_only_refreshes_last_used_witness :
  let sv := serve_stream_chat Toy.cipher Toy.hello Toy.db Toy.unknown_chat 30 31 32 33 in
  sv_provider_calls sv = [("AIza-key", "hi there")] /\
  sv_response sv = EventStream ["data: Hel" ++ nl ++ nl; "data: lo" ++ nl ++ nl] /\
  prompts (sv_db sv) = prompts Toy.db /\
  chats (sv_db sv) = chats Toy.db /\
  messages (sv_db sv) = messages Toy.db /\
  session_by_token (sv_db sv) "tok-1" =
    Some {| UserSession.id := 1; UserSession.session_id := "tok-1";
            UserSession.encrypted_api_key := "gAAAAAAIza-key";
            UserSession.created_at := 10; UserSession.last_used := 30 |}.
Proof.
  assert (Hne : "AIza-key" <> "") by discriminate.
  assert (Hbind : bindable Toy.unknown_chat).
  { unfold bindable, sqlite_int. simpl. lia. }
  destruct (unresolved_chat_streams_and_only_refreshes_last_used Toy.cipher Toy.hello Toy.db
              Toy.unknown_chat 30 31 32 33 "AIza-key" eq_refl Hne Hbind
              (or_introl (conj eq_refl eq_refl)))
    as (Hcalls & Hr & Hp & Hc & Hm & sid & s & Hh & Hs & _ & Hfound).
  inversion Hh; subst sid. inversion Hs; subst s.
  repeat split; assumption.
Defined.

(** ** Conversation Store: read-back order *)

Lemma subseq_refl {A} (l : list A) : subseq l l.
Proof. induction l; constructor; assumption. Qed.

Lemma subseq_nil_l {A} (l : list A) : subseq [] l.
Proof. induction l; constructor; assumption. Qed.

Lemma subseq_app {A} (a b c d : list A) :
  subseq a b -> subseq c d -> subseq (a ++ c) (b ++ d).
Proof.
  intros Hab Hcd. induction Hab; simpl.
  - exact Hcd.
  - now constructor.
  - now constructor.
Qed.

Lemma subseq_filter {A} (f : A -> bool) (l : list A) : subseq (filter f l) l.
Proof.
  induction l as [|x l IH]; simpl.
  - constructor.
  - destruct (f x); now constructor.
Qed.

Lemma subseq_trans {A} (l1 l2 l3 : list A) :
  subseq l1 l2 -> subseq l2 l3 -> subseq l1 l3.
Proof.
  intros H12 H23. revert l1 H12.
  induction H23 as [|x l2 l3 H23 IH|x l2 l3 H23 IH]; intros l1 H12.
  - exact H12.
  - constructor. now apply IH.
  - inversion H12; subst.
    + constructor. now apply IH.
    + apply subseq_keep. now apply IH.
Qed.

Lemma subseq_map {A B} (f : A -> B) (l1 l2 : list A) :
  subseq l1 l2 -> subseq (map f l1) (map f l2).
Proof. intros H. induction H; simpl; now constructor. Qed.

Lemma subseq_Forall {A} (P : A -> Prop) (l1 l2 : list A) :
  subseq l1 l2 -> Forall P l2 -> Forall P l1.
Proof.
  intros H. induction H; intros HF.
  - constructor.
  - inversion HF; subst. auto.
  - inversion HF; subst. constructor; auto.
Qed.

Lemma subseq_sorted {A} (R : A -> A -> Prop) (l1 l2 : list A) :
  subseq l1 l2 -> StronglySorted R l2 -> StronglySorted R l1.
Proof.
  intros H. induction H; intros HS.
  - constructor.
  - inversion HS; subst. auto.
  - inversion HS; subst. constructor; [auto|].
    eapply subseq_Forall; eassumption.
Qed.

Lemma sorted_snoc (l rest : list Z) (t : Z) :
  StronglySorted Z.le l ->
  Forall (fun x => x <= t) l ->
  Forall (fun x => x = t) rest ->
  StronglySorted Z.le (l ++ rest).
Proof.
  intros HS Hle Hrest. induction HS as [|x l HS IH Hx]; simpl.
  - induction Hrest as [|y rest Hy Hrest IHr]; constructor; [exact IHr|].
    subst y. eapply Forall_impl; [|exact Hrest]. simpl. intros z ->. lia.
  - inversion Hle; subst. constructor; [now apply IH|].
    apply Forall_app. split; [exact Hx|].
    eapply Forall_impl; [|exact Hrest]. simpl. intros z ->. assumption.
Qed.

Lemma sorted_lt_snoc (l : list Z) (t : Z) :
  StronglySorted Z.lt l ->
  Forall (fun x => x < t) l ->
  StronglySorted Z.lt (l ++ [t]).
Proof.
  intros HS Hlt. induction HS as [|x l HS IH Hx]; simpl.
  - repeat constructor.
  - inversion Hlt; subst. constructor; [now apply IH|].
    apply Forall_app. split; [exact Hx | repeat constructor; assumption].
Qed.

Lemma next_id_above (ids : list Z) : Forall (fun x => x < next_id ids) ids.
Proof.
  unfold next_id. induction ids as [|a ids IH]; cbn [fold_right]; constructor.
  - lia.
  - eapply Forall_impl; [|exact IH]. cbv beta. intros x Hx. lia.
Qed.

Lemma skipn_app_exact {A} (l r : list A) : skipn (length l) (l ++ r) = r.
Proof. induction l; simpl; auto. Qed.

(** What the handler and the generator add to the Message table carries
    the clock reading they were given. *)
Lemma stream_chat_rows (F : Fernet) (db : DB) (req : chat_request)
    (t_used t_chat t_msg : datetime) :
  exists rest,
    messages (fst (stream_chat F db req t_used t_chat t_msg)) = (messages db ++ rest)%list /\
    one_insert db t_msg rest.
Proof.
  unfold stream_chat.
  destruct (resolve_frame F db (rq_session_id req) t_used) as (_ & _ & Hmsgs & _).
  destruct (get_api_key_from_session F db (rq_session_id req) t_used) as [db1 k].
  simpl in Hmsgs.
  destruct (negb (truthy_opt truthy_str k)); simpl.
  - exists []. rewrite app_nil_r. split; [assumption | left; reflexivity].
  - destruct (resolve_chat_frame db1 req t_chat) as (_ & _ & Hm2).
    destruct (resolve_chat db1 req t_chat) as [db2 chat]. simpl in *.
    destruct chat as [c|]; simpl.
    + eexists. rewrite Hm2, Hmsgs. split; [reflexivity|].
      right. eexists. split; [reflexivity|]. simpl. split; [reflexivity | congruence].
    + exists []. rewrite app_nil_r. split; [congruence | left; reflexivity].
Qed.

Lemma generate_rows (db : DB) (g : generator) (response : provider_stream) (now : datetime) :
  exists rest,
    messages (dr_db (generate db g response now)) = (messages db ++ rest)%list /\
    one_insert db now rest.
Proof.
  unfold generate.
  assert (Hsame : exists rest, messages db = (messages db ++ rest)%list /\
                               one_insert db now rest).
  { exists []. rewrite app_nil_r. split; [reflexivity | left; reflexivity]. }
  destruct (relay (chunks response) "") as [total events].
  destruct (ending response); [|exact Hsame].
  destruct (g_chat g) as [pk|]; [|exact Hsame].
  destruct (truthy_str total); [|exact Hsame].
  destruct (chat_by_id db pk); [|exact Hsame].
  simpl. eexists. split; [reflexivity|].
  right. eexists. split; [reflexivity|]. split; reflexivity.
Qed.

Lemma delete_prompt_rows (db : DB) (pk : Z) :
  subseq (messages (fst (delete_prompt db pk))) (messages db).
Proof.
  unfold delete_prompt.
  destruct (find (fun p => Prompt.id p =? pk) (prompts db)); simpl.
  - apply subseq_filter.
  - apply subseq_refl.
Qed.

Section ServiceFacts.
Variable F : Fernet.

Lemma history_ok_initial : history_ok initial.
Proof. repeat split; simpl; constructor. Qed.

Lemma one_insert_stamped (db : DB) (now : datetime) (rest : list Message.t) :
  one_insert db now rest -> Forall (fun m => Message.created_at m = now) rest.
Proof.
  intros [-> | (m & -> & Ht & _)]; repeat constructor. exact Ht.
Qed.

Lemma history_ok_later (db : DB) (pending : list generator) (w : World) (now : datetime) :
  history_ok w ->
  w_clock w <= now ->
  messages db = messages (w_db w) ->
  history_ok {| w_db := db; w_pending := pending; w_appended := w_appended w; w_clock := now |}.
Proof.
  intros (Hsub & Hsorted & Hclock & Hkeys) Hle Hm. unfold history_ok. simpl. rewrite Hm.
  repeat split; auto.
  eapply Forall_impl; [|exact Hclock]. simpl. intros m Hmle. lia.
Qed.

(** Rows appended with the current reading keep the history in order. *)
Lemma history_ok_append (db : DB) (pending : list generator) (w : World) (now : datetime)
    (rest : list Message.t) :
  history_ok w ->
  w_clock w <= now ->
  messages db = (messages (w_db w) ++ rest)%list ->
  one_insert (w_db w) now rest ->
  history_ok {| w_db := db;
                w_pending := pending;
                w_appended := w_appended w ++ inserted (w_db w) db;
                w_clock := now |}.
Proof.
  intros (Hsub & Hsorted & Hclock & Hkeys) Hle Hm Hone.
  pose proof (one_insert_stamped _ _ _ Hone) as Hrest.
  unfold history_ok, inserted. simpl. rewrite Hm, skipn_app_exact.
  assert (Hold : Forall (fun m => Message.created_at m <= now) (w_appended w)).
  { eapply Forall_impl; [|exact Hclock]. simpl. intros m Hmle. lia. }
  repeat split.
  - apply subseq_app; [exact Hsub | apply subseq_refl].
  - rewrite map_app. apply (sorted_snoc _ _ now Hsorted).
    + apply Forall_map. exact Hold.
    + apply Forall_map. exact Hrest.
  - apply Forall_app. split; [exact Hold|].
    eapply Forall_impl; [|exact Hrest]. simpl. intros m ->. lia.
  - destruct Hone as [-> | (m & -> & _ & Hid)].
    + rewrite app_nil_r. exact Hkeys.
    + rewrite map_app. simpl. rewrite Hid.
      apply sorted_lt_snoc; [exact Hkeys | apply next_id_above].
Qed.

Lemma exec_history_ok (w w' : World) (ev : event F) :
  history_ok w -> exec F w ev = Some w' -> history_ok w'.
Proof.
  intros Hok Hexec.
  destruct ev as [title content category t_created t_updated
                 | pk title content category now | pk
                 | api_key verdict token iv t_created t_used'
                 | req t_used t_chat t_msg | i stream now];
    simpl in Hexec.
  - destruct ((w_clock w <=? t_created) && (t_created <=? t_updated))%bool eqn:Hle;
      [|discriminate].
    inversion Hexec; subst.
    apply andb_true_iff in Hle. destruct Hle as [Hle1 Hle2]. apply Z.leb_le in Hle1, Hle2.
    apply history_ok_later; [exact Hok | simpl; lia | reflexivity].
  - destruct (w_clock w <=? now) eqn:Hle; [|discriminate].
    inversion Hexec; subst. apply Z.leb_le in Hle.
    apply history_ok_later; auto.
    unfold update_prompt. destruct (find _ (prompts (w_db w))); reflexivity.
  - inversion Hexec; subst. destruct Hok as (Hsub & Hsorted & Hclock & Hkeys).
    repeat split; simpl; auto.
    + eapply subseq_trans; [apply delete_prompt_rows | exact Hsub].
    + eapply subseq_sorted; [|exact Hkeys]. apply subseq_map, delete_prompt_rows.
  - destruct ((w_clock w <=? t_created) && (t_created <=? t_used'))%bool eqn:Hle;
      [|discriminate].
    inversion Hexec; subst.
    apply andb_true_iff in Hle. destruct Hle as [Hle1 Hle2]. apply Z.leb_le in Hle1, Hle2.
    apply history_ok_later; [exact Hok | simpl; lia |].
    unfold update_api_key.
    destruct (negb (truthy_opt truthy_str api_key)); [reflexivity|].
    destruct verdict; [|reflexivity].
    destruct (session_by_token (w_db w) token); reflexivity.
  - destruct ((w_clock w <=? t_used) && (t_used <=? t_chat) && (t_chat <=? t_msg))%bool
      eqn:Hle; [|discriminate].
    apply andb_true_iff in Hle. destruct Hle as [Hle H3].
    apply andb_true_iff in Hle. destruct Hle as [H1 H2].
    apply Z.leb_le in H1, H2, H3.
    destruct (stream_chat_rows F (w_db w) req t_used t_chat t_msg) as (rest & Hm & Hrest).
    destruct (stream_chat F (w_db w) req t_used t_chat t_msg) as [db h].
    inversion Hexec; subst. simpl in Hm.
    apply (history_ok_append db _ w t_msg rest); auto. lia.
  - destruct (nth_error (w_pending w) i) as [g|]; [|discriminate].
    destruct (w_clock w <=? now) eqn:Hle; [|discriminate].
    inversion Hexec; subst. apply Z.leb_le in Hle.
    destruct (generate_rows (w_db w) g stream now) as (rest & Hm & Hrest).
    apply (history_ok_append _ _ w now rest); auto.
Qed.

Lemma run_history_ok (evs : list (event F)) (w w' : World) :
  history_ok w -> run F w evs = Some w' -> history_ok w'.
Proof.
  revert w. induction evs as [|ev evs IH]; simpl; intros w Hok Hrun.
  - inversion Hrun; subst. exact Hok.
  - destruct (exec F w ev) as [w1|] eqn:Hexec; [|discriminate].
    apply (IH w1); [|exact Hrun]. eapply exec_history_ok; eassumption.
Qed.
End ServiceFacts.

(** C9.  In every state the service reaches from the empty database, by any
    sequence of prompt edits and deletions, registrations, chat requests
    and drained streams, under a clock that does not run backwards: the
    messages of every chat returned by [get_chats] come in non-decreasing
    order of creation time, and in the order in which they were inserted,
    being what is left of the insertion history with its order kept; their
    keys ascend, so the table order read back is SQLite's scan order. *)
Theorem messages_read_back_oldest_first (F : Fernet) (evs : list (event F)) (w : World)
    (prompt_id : Z) (d : chat_dict) :
  run F initial evs = Some w ->
  In d (get_chats (w_db w) prompt_id) ->
  StronglySorted Z.le (map Message.d_created_at (cd_messages d)) /\
  subseq (cd_messages d) (map Message.to_dict (w_appended w)) /\
  StronglySorted Z.lt (map Message.d_id (cd_messages d)).
Proof.
  intros Hrun Hin.
  destruct (run_history_ok F evs initial w history_ok_initial Hrun)
    as (Hsub & Hsorted & _ & Hkeys).
  unfold get_chats in Hin. apply in_map_iff in Hin. destruct Hin as (c & <- & _).
  simpl.
  assert (Hrows : subseq (chat_messages (w_db w) (Chat.id c)) (w_appended w)).
  { eapply subseq_trans; [apply subseq_filter | exact Hsub]. }
  split.
  - rewrite map_map. simpl.
    apply (subseq_sorted Z.le _ (map Message.created_at (w_appended w))); [|exact Hsorted].
    apply subseq_map. exact Hrows.
  - split; [apply subseq_map; exact Hrows|].
    rewrite map_map. simpl.
    apply (subseq_sorted Z.lt _ (map Message.id (messages (w_db w)))); [|exact Hkeys].
    apply subseq_map, subseq_filter.
Qed.

Lemma messages_read_back_oldest_first_witness :
  let d :=
    {| cd_id := 1;
       cd_prompt_id := 1;
       cd_created_at := 20;
       cd_messages :=
         [ {| Message.d_id := 1; Message.d_role := "user";
              Message.d_content := "good morning"; Message.d_created_at := 21 |};
           {| Message.d_id := 2; Message.d_role := "assistant";
              Message.d_content := "Bonjour"; Message.d_created_at := 25 |};
           {| Message.d_id := 3; Message.d_role := "user";
              Message.d_content := "good night"; Message.d_created_at := 30 |};
           {| Message.d_id := 4; Message.d_role := "assistant";
              Message.d_content := "Bonne nuit"; Message.d_created_at := 30 |} ] |} in
  exists w,
    run Toy.cipher initial (session_events Toy.cipher tt) = Some w /\
    get_chats (w_db w) 1 = [d] /\
    StronglySorted Z.le (map Message.d_created_at (cd_messages d)) /\
    subseq (cd_messages d) (map Message.to_dict (w_appended w)) /\
    StronglySorted Z.lt (map Message.d_id (cd_messages d)).
Proof.
  cbv zeta. eexists. split; [vm_compute; reflexivity|].
  split; [vm_compute; reflexivity|].
  eapply (messages_read_back_oldest_first Toy.cipher (session_events Toy.cipher tt) _ 1).
  - vm_compute. reflexivity.
  - vm_compute. left. reflexivity.
Defined.

(** * Further properties of the handlers *)

(** ** The relay loop and the turn it closes *)

Lemma string_app_assoc (a b c : string) : ((a ++ b) ++ c = a ++ (b ++ c))%string.
Proof. induction a as [|x a IH]; simpl; [reflexivity | now rewrite IH]. Qed.

Lemma string_app_nil_r (a : string) : (a ++ "" = a)%string.
Proof. induction a as [|x a IH]; simpl; [reflexivity | now rewrite IH]. Qed.

Lemma relay_from (texts : list string) (acc : string) :
  relay texts acc = ((acc ++ join texts)%string, map sse (filter truthy_str texts)).
Proof.
  revert acc. induction texts as [|text rest IH]; intros acc; simpl.
  - now rewrite string_app_nil_r.
  - destruct (truthy_str text) eqn:E.
    + rewrite IH, string_app_assoc. reflexivity.
    + apply truthy_str_false in E. subst text. simpl. apply IH.
Qed.


(** A completed turn in terms of the rows the handler and the generator
    build. *)
Lemma completed_turn_rows (F : Fernet)
    (genai : string -> string -> provider_stream) (db : DB) (req : chat_request)
    (t_used t_chat t_msg t_reply : datetime) (key : string) (c : Chat.t)
    (texts : list string) :
  snd (get_api_key_from_session F db (rq_session_id req) t_used) = Some key ->
  key <> "" ->
  snd (resolve_chat db req t_chat) = Some c ->
  genai key (full_prompt (get_default (rq_prompt req) "") (get_default (rq_message req) ""))
    = {| chunks := texts; ending := Exhausted |} ->
  let sv := serve_stream_chat F genai db req t_used t_chat t_msg t_reply in
  let user_row := new_message db (Chat.id c) "user" (get_default (rq_message req) "") t_msg in
  let assistant_row :=
    new_message (add_message db user_row) (Chat.id c) "assistant" (join texts) t_reply in
  sv_response sv = EventStream (map sse (filter truthy_str texts)) /\
  sv_raised sv = false /\
  (join texts <> "" ->
     messages (sv_db sv) = (messages db ++ [user_row; assistant_row])%list) /\
  (join texts = "" -> messages (sv_db sv) = (messages db ++ [user_row])%list).
Proof.
  intros Hkey Hne Hc Hgen. cbv zeta.
  destruct (turn_ready F db req t_used t_chat t_msg key c Hkey Hne Hc)
    as (db3 & c' & Hsc & Hm3 & Hrow & Hid).
  unfold serve_stream_chat. rewrite Hsc. cbv iota beta. simpl g_api_key. simpl g_full_prompt.
  rewrite Hgen. unfold generate. simpl chunks. simpl ending. simpl g_chat.
  rewrite relay_from. simpl "++"%string.
  destruct (truthy_str (join texts)) eqn:E.
  - rewrite Hrow. simpl. rewrite Hid, Hm3, <- app_assoc. simpl.
    split; [reflexivity|]. split; [reflexivity|]. split.
    + intros _. do 3 f_equal. apply new_message_same_rows. simpl. exact Hm3.
    + intros H. apply truthy_str_true in E. contradiction.
  - simpl. split; [reflexivity|]. split; [reflexivity|]. split.
    + intros H. apply truthy_str_false in E. contradiction.
    + intros _. exact Hm3.
Qed.

(** X2.  A turn on a resolved chat whose provider stream runs to its end:
    the caller receives one event "data: <fragment>" followed by a blank
    line per non-empty fragment, in order; the Message table gains a row of
    that chat with role "user" and the request's message as content, and
    then, when the fragments put together are not empty, exactly one row
    of that chat with role "assistant" whose content is their
    concatenation; when they are all empty, no assistant row. *)
Theorem completed_turn_persists_joined_reply (F : Fernet)
    (genai : string -> string -> provider_stream) (db : DB) (req : chat_request)
    (t_used t_chat t_msg t_reply : datetime) (key : string) (c : Chat.t)
    (texts : list string) :
  snd (get_api_key_from_session F db (rq_session_id req) t_used) = Some key ->
  key <> "" ->
  snd (resolve_chat db req t_chat) = Some c ->
  genai key (full_prompt (get_default (rq_prompt req) "") (get_default (rq_message req) ""))
    = {| chunks := texts; ending := Exhausted |} ->
  let sv := serve_stream_chat F genai db req t_used t_chat t_msg t_reply in
  let user_row :=
    {| Message.id := 1 + fold_right Z.max 0 (map Message.id (messages db));
       Message.chat_id := Chat.id c;
       Message.role := "user";
       Message.content := match rq_message req with Some text => text | None => "" end;
       Message.created_at := t_msg |} in
  let assistant_row :=
    {| Message.id := 1 + fold_right Z.max 0 (map Message.id (messages db ++ [user_row])%list);
       Message.chat_id := Chat.id c;
       Message.role := "assistant";
       Message.content := fold_right String.append "" texts;
       Message.created_at := t_reply |} in
  sv_response sv =
    EventStream (map (fun text => ("data: " ++ text ++ nl ++ nl)%string)
                     (filter (fun text => negb (text =? "")%string) texts)) /\
  sv_raised sv = false /\
  (fold_right String.append "" texts <> "" ->
     messages (sv_db sv) = (messages db ++ [user_row; assistant_row])%list) /\
  (fold_right String.append "" texts = "" ->
     messages (sv_db sv) = (messages db ++ [user_row])%list).
Proof.
  intros Hkey Hne Hc Hgen.
  exact (completed_turn_rows F genai db req t_used t_chat t_msg t_reply key c texts
           Hkey Hne Hc Hgen).
Qed.

Lemma completed_turn_persists_joined_reply_witness :
  let sv := serve_stream_chat Toy.cipher Toy.hello Toy.db Toy.start_chat 30 31 32 33 in
  messages (sv_db sv) =
    [Toy.first_message;
     {| Message.id := 2; Message.chat_id := 2; Message.role := "user";
        Message.content := "good morning"; Message.created_at := 32 |};
     {| Message.id := 3; Message.chat_id := 2; Message.role := "assistant";
        Message.content := "Hello"; Message.created_at := 33 |}].
Proof.
  assert (Hne : "AIza-key" <> "") by discriminate.
  destruct (completed_turn_persists_joined_reply Toy.cipher Toy.hello Toy.db Toy.start_chat
              30 31 32 33 "AIza-key" Toy.second_chat ["Hel"; "lo"] eq_refl Hne eq_refl eq_refl)
    as (_ & _ & Hrows & _).
  apply Hrows. discriminate.
Defined.

(** X3.  A turn on a resolved chat whose provider stream raises, at once
    or after some fragments: the fragments received were relayed, the user
    row written by the handler stays, nothing else is written, and in
    particular there is no assistant row with the partial reply. *)
Theorem raised_turn_keeps_user_row_only (F : Fernet)
    (genai : string -> string -> provider_stream) (db : DB) (req : chat_request)
    (t_used t_chat t_msg t_reply : datetime) (key : string) (c : Chat.t)
    (texts : list string) :
  snd (get_api_key_from_session F db (rq_session_id req) t_used) = Some key ->
  key <> "" ->
  snd (resolve_chat db req t_chat) = Some c ->
  genai key (full_prompt (get_default (rq_prompt req) "") (get_default (rq_message req) ""))
    = {| chunks := texts; ending := Raised |} ->
  let sv := serve_stream_chat F genai db req t_used t_chat t_msg t_reply in
  let user_row := new_message db (Chat.id c) "user" (get_default (rq_message req) "") t_msg in
  sv_response sv = EventStream (map sse (filter truthy_str texts)) /\
  sv_raised sv = true /\
  sv_db sv = fst (stream_chat F db req t_used t_chat t_msg) /\
  messages (sv_db sv) = (messages db ++ [user_row])%list.
Proof.
  intros Hkey Hne Hc Hgen. cbv zeta.
  destruct (turn_ready F db req t_used t_chat t_msg key c Hkey Hne Hc)
    as (db3 & c' & Hsc & Hm3 & Hrow & Hid).
  unfold serve_stream_chat. rewrite Hsc. cbv iota beta. simpl g_api_key. simpl g_full_prompt.
  rewrite Hgen. unfold generate. simpl chunks. simpl ending.
  rewrite relay_from. simpl. repeat split. exact Hm3.
Qed.

Lemma raised_turn_keeps_user_row_only_witness :
  let sv := serve_stream_chat Toy.cipher Toy.broken Toy.db Toy.continue_chat 30 31 32 33 in
  sv_response sv = EventStream (map sse (filter truthy_str ["Hel"])) /\
  sv_raised sv = true /\
  sv_db sv = fst (stream_chat Toy.cipher Toy.db Toy.continue_chat 30 31 32) /\
  messages (sv_db sv) =
    (messages Toy.db ++ [new_message Toy.db 1 "user" "and in Spanish?" 32])%list.
Proof.
  assert (Hne : "AIza-key" <> "") by discriminate.
  exact (raised_turn_keeps_user_row_only Toy.cipher Toy.broken Toy.db Toy.continue_chat
           30 31 32 33 "AIza-key" Toy.chat ["Hel"] eq_refl Hne eq_refl eq_refl).
Defined.

(** ** Who gets a stream *)

(** X4.  For a request whose identifiers SQLite can hold, [stream_chat]
    hands a generator to the response exactly when the [X-Session-ID] header
    names a stored session whose blob decrypts to a non-empty key, and the
    generator then holds that key.  When the session does not resolve (no
    header or an empty one, an unknown token, a blob that does not decrypt
    or decrypts to nothing) the answer is the 401 body, and the Prompt, Chat
    and Message tables are as they were. *)
Theorem stream_chat_streams_iff_session_resolves (F : Fernet) (db : DB)
    (req : chat_request) (t_used t_chat t_msg : datetime) :
  (forall g, snd (stream_chat F db req t_used t_chat t_msg) = Streaming g ->
     g_api_key g <> "" /\
     exists sid s,
       rq_session_id req = Some sid /\ sid <> "" /\ session_by_token db sid = Some s /\
       decrypt F (UserSession.encrypted_api_key s) = Some (g_api_key g)) /\
  (forall sid s key,
     rq_session_id req = Some sid -> sid <> "" -> session_by_token db sid = Some s ->
     decrypt F (UserSession.encrypted_api_key s) = Some key -> key <> "" ->
     bindable req ->
     exists g, snd (stream_chat F db req t_used t_chat t_msg) = Streaming g /\
               g_api_key g = key) /\
  ((forall sid s key,
      rq_session_id req = Some sid -> sid <> "" -> session_by_token db sid = Some s ->
      decrypt F (UserSession.encrypted_api_key s) = Some key -> key = "") ->
   snd (stream_chat F db req t_used t_chat t_msg) =
     Rejected (Json 401 [("error",
       "Invalid or expired session. Please set your API key in settings.")]) /\
   prompts (fst (stream_chat F db req t_used t_chat t_msg)) = prompts db /\
   chats (fst (stream_chat F db req t_used t_chat t_msg)) = chats db /\
   messages (fst (stream_chat F db req t_used t_chat t_msg)) = messages db).
Proof.
  destruct (api_key_cases (snd (get_api_key_from_session F db (rq_session_id req) t_used)))
    as [Hno | (key & Hkey & Hne)].
  - rewrite (stream_chat_unauthorized F db req _ _ _ Hno). simpl.
    split; [intros g H; discriminate|]. split.
    + intros sid s key Hh Hsid Hs Hd Hk _.
      assert (Hres : snd (get_api_key_from_session F db (rq_session_id req) t_used) = Some key).
      { apply resolve_returns. exists sid, s. auto. }
      rewrite Hres in Hno. simpl in Hno. apply truthy_str_false in Hno. contradiction.
    + intros _. split; [reflexivity|].
      destruct (resolve_frame F db (rq_session_id req) t_used) as (Hp & Hc & Hm & _). auto.
  - rewrite (stream_chat_authorized F db req _ _ _ key Hkey Hne). cbv zeta. simpl.
    split.
    + intros g H. inversion H; subst g. simpl. split; [exact Hne|].
      apply resolve_returns in Hkey. destruct Hkey as (sid & s & H1 & H2 & H3 & H4).
      exists sid, s. auto.
    + split.
      * intros sid s key' Hh Hsid Hs Hd Hk _.
        assert (Hres : snd (get_api_key_from_session F db (rq_session_id req) t_used)
                       = Some key').
        { apply resolve_returns. exists sid, s. auto. }
        rewrite Hkey in Hres. inversion Hres; subst key'.
        eexists. split; reflexivity.
      * intros Hnone. exfalso. apply Hne.
        apply resolve_returns in Hkey. destruct Hkey as (sid & s & H1 & H2 & H3 & H4).
        exact (Hnone sid s key H1 H2 H3 H4).
Qed.

Lemma stream_chat_streams_iff_session_resolves_witness :
  (exists g, snd (stream_chat Toy.cipher Toy.db Toy.continue_chat 30 31 32) = Streaming g /\
             g_api_key g = "AIza-key") /\
  snd (stream_chat Toy.cipher Toy.corrupt_db Toy.continue_chat 30 31 32) =
    Rejected (Json 401 [("error",
      "Invalid or expired session. Please set your API key in settings.")]).
Proof.
  assert (Hsid : "tok-1" <> "") by discriminate.
  assert (Hne : "AIza-key" <> "") by discriminate.
  assert (Hbind : bindable Toy.continue_chat).
  { unfold bindable, sqlite_int. simpl. lia. }
  destruct (stream_chat_streams_iff_session_resolves Toy.cipher Toy.db Toy.continue_chat
              30 31 32) as (_ & Hyes & _).
  destruct (stream_chat_streams_iff_session_resolves Toy.cipher Toy.corrupt_db
              Toy.continue_chat 30 31 32) as (_ & _ & Hno).
  split.
  - exact (Hyes "tok-1" Toy.session "AIza-key" eq_refl Hsid eq_refl eq_refl Hne Hbind).
  - apply Hno. intros sid s key Hh _ Hs Hd.
    inversion Hh; subst sid. inversion Hs; subst s. discriminate Hd.
Defined.

(** ** Session Store, further *)

Lemma find_token_but_last_used (sid : string) (l : list UserSession.t) :
  find (fun s => (UserSession.session_id s =? sid)%string) (map but_last_used l) =
  option_map but_last_used (find (fun s => (UserSession.session_id s =? sid)%string) l).
Proof.
  induction l as [|a l IH]; simpl; [reflexivity|].
  destruct (UserSession.session_id a =? sid)%string; [reflexivity | exact IH].
Qed.

(** X5.  Registration answers 200 exactly when it was given a non-empty
    credential, the provider's test call returned and the drawn token is
    held by no session; it then appends one session row holding the token,
    the encrypted credential, and as [created_at] and [last_used] the two
    clock readings their column defaults took.  In every other case it
    answers 400 and the database is unchanged.  It never writes to the
    Prompt, Chat and Message tables nor to an existing session. *)
Theorem update_api_key_outcomes (F : Fernet) (db : DB) (api_key : option string)
    (verdict : probe) (token : string) (iv : nonce F) (t_created t_used : datetime) :
  let out := update_api_key F db api_key verdict token iv t_created t_used in
  let accepted :=
    (truthy_opt truthy_str api_key = true /\ verdict = ProbeOk /\
     session_by_token db token = None) in
  (accepted ->
     snd out = Json 200 [("message", "API key saved successfully"); ("session_id", token)] /\
     fst out = add_user_session db
                 {| UserSession.id := next_id (map UserSession.id (user_sessions db));
                    UserSession.session_id := token;
                    UserSession.encrypted_api_key := encrypt F iv (get_default api_key "");
                    UserSession.created_at := t_created;
                    UserSession.last_used := t_used |}) /\
  (~ accepted -> fst out = db /\ exists e, snd out = Json 400 [("error", e)]) /\
  prompts (fst out) = prompts db /\ chats (fst out) = chats db /\
  messages (fst out) = messages db /\
  grows (user_sessions db) (user_sessions (fst out)).
Proof.
  cbv zeta. unfold update_api_key, grows.
  destruct (truthy_opt truthy_str api_key) eqn:Hk; simpl.
  2:{ repeat split; try reflexivity.
      - destruct H as (H & _). discriminate.
      - destruct H as (H & _). discriminate.
      - eexists; reflexivity.
      - exists []. now rewrite app_nil_r. }
  destruct verdict as [|e]; simpl.
  2:{ repeat split; try reflexivity.
      - destruct H as (_ & H & _). discriminate.
      - destruct H as (_ & H & _). discriminate.
      - eexists; reflexivity.
      - exists []. now rewrite app_nil_r. }
  destruct (session_by_token db token) as [s|] eqn:Hs; simpl.
  - repeat split; try reflexivity.
    + destruct H as (_ & _ & H). discriminate.
    + destruct H as (_ & _ & H). discriminate.
    + eexists; reflexivity.
    + exists []. now rewrite app_nil_r.
  - repeat split; try reflexivity.
    + exfalso. apply H. auto.
    + exfalso. apply H. auto.
    + eexists; reflexivity.
Qed.

Lemma update_api_key_outcomes_witness :
  snd (update_api_key Toy.cipher Toy.db (Some "AIza-2") ProbeOk "tok-2" tt 30 31) =
    Json 200 [("message", "API key saved successfully"); ("session_id", "tok-2")] /\
  user_sessions (fst (update_api_key Toy.cipher Toy.db (Some "AIza-2") ProbeOk "tok-2" tt 30 31)) =
    [Toy.session;
     {| UserSession.id := 2;
        UserSession.session_id := "tok-2";
        UserSession.encrypted_api_key := "gAAAAAAIza-2";
        UserSession.created_at := 30;
        UserSession.last_used := 31 |}] /\
  fst (update_api_key Toy.cipher Toy.db (Some "AIza-2") ProbeOk "tok-1" tt 30 31) = Toy.db.
Proof.
  destruct (update_api_key_outcomes Toy.cipher Toy.db (Some "AIza-2") ProbeOk "tok-2" tt 30 31)
    as (Hyes & _).
  destruct (update_api_key_outcomes Toy.cipher Toy.db (Some "AIza-2") ProbeOk "tok-1" tt 30 31)
    as (_ & Hno & _).
  assert (Hacc : truthy_opt truthy_str (Some "AIza-2") = true /\ ProbeOk = ProbeOk /\
                 session_by_token Toy.db "tok-2" = None) by (repeat split).
  destruct (Hyes Hacc) as [Hr Hdb].
  split; [exact Hr|]. split.
  - rewrite Hdb. reflexivity.
  - apply Hno. intros (_ & _ & H). discriminate.
Defined.

Lemma same_key_same_row {A} (f : A -> Z) (l : list A) (a b : A) :
  NoDup (map f l) -> In a l -> In b l -> f a = f b -> a = b.
Proof.
  induction l as [|x l IH]; simpl; intros Hnd Ha Hb Hf; [contradiction|].
  inversion Hnd as [|y l' Hnotin Hnd']; subst.
  destruct Ha as [->|Ha], Hb as [->|Hb].
  - reflexivity.
  - exfalso. apply Hnotin. rewrite Hf. now apply in_map.
  - exfalso. apply Hnotin. rewrite <- Hf. now apply in_map.
  - now apply IH.
Qed.



Lemma find_app_found {A} (f : A -> bool) (l1 l2 : list A) (x : A) :
  find f l1 = Some x -> find f (l1 ++ l2) = Some x.
Proof.
  induction l1 as [|a l1 IH]; simpl; [discriminate|].
  destruct (f a); [auto | exact IH].
Qed.

(** A session found before is found after, whenever the session table only
    had [last_used] columns rewritten and rows added at its end. *)
Lemma session_still_found (db db' : DB) (sid : string) (s : UserSession.t) :
  grows (map but_last_used (user_sessions db)) (map but_last_used (user_sessions db')) ->
  session_by_token db sid = Some s ->
  exists s', session_by_token db' sid = Some s' /\ but_last_used s' = but_last_used s.
Proof.
  intros [extra Hg] Hs. unfold session_by_token in *.
  pose proof (find_token_but_last_used sid (user_sessions db')) as H'.
  rewrite Hg in H'.
  pose proof (find_token_but_last_used sid (user_sessions db)) as H0.
  rewrite Hs in H0. simpl in H0.
  rewrite (find_app_found _ _ extra _ H0) in H'.
  destruct (find _ (user_sessions db')) as [s'|]; simpl in H'; [|discriminate].
  exists s'. split; [reflexivity | congruence].
Qed.

Lemma grows_refl {A} (l : list A) : grows l l.
Proof. exists []. now rewrite app_nil_r. Qed.

Lemma grows_trans {A} (l1 l2 l3 : list A) : grows l1 l2 -> grows l2 l3 -> grows l1 l3.
Proof. intros [a ->] [b ->]. exists (a ++ b)%list. now rewrite app_assoc. Qed.

Lemma grows_same {A} (l l' : list A) : l' = l -> grows l l'.
Proof. intros ->. apply grows_refl. Qed.

Section SessionLifetime.
Variable F : Fernet.

Lemma stream_chat_sessions (db : DB) (req : chat_request) (t_used t_chat t_msg : datetime) :
  map but_last_used (user_sessions (fst (stream_chat F db req t_used t_chat t_msg))) =
  map but_last_used (user_sessions db).
Proof.
  unfold stream_chat.
  destruct (resolve_frame F db (rq_session_id req) t_used) as (_ & _ & _ & Hs).
  destruct (get_api_key_from_session F db (rq_session_id req) t_used) as [db1 k].
  simpl in Hs.
  destruct (negb (truthy_opt truthy_str k)); simpl; [exact Hs|].
  destruct (resolve_chat_frame db1 req t_chat) as (Hs2 & _).
  destruct (resolve_chat db1 req t_chat) as [db2 chat]. simpl in *.
  destruct chat; simpl; congruence.
Qed.

Lemma exec_sessions (w w' : World) (ev : event F) :
  exec F w ev = Some w' ->
  grows (map but_last_used (user_sessions (w_db w)))
        (map but_last_used (user_sessions (w_db w'))).
Proof.
  intros Hexec.
  destruct ev as [title content category t_created t_updated
                 | pk title content category now | pk
                 | api_key verdict token iv t_created t_used'
                 | req t_used t_chat t_msg | i stream now];
    simpl in Hexec.
  - destruct ((w_clock w <=? t_created) && (t_created <=? t_updated))%bool eqn:Hle;
      [|discriminate]. inversion Hexec; subst. apply grows_refl.
  - destruct (w_clock w <=? now); [|discriminate]. inversion Hexec; subst. simpl.
    unfold update_prompt. destruct (find _ (prompts (w_db w))); apply grows_refl.
  - inversion Hexec; subst. simpl.
    unfold delete_prompt. destruct (find _ (prompts (w_db w))); apply grows_refl.
  - destruct ((w_clock w <=? t_created) && (t_created <=? t_used'))%bool eqn:Hle;
      [|discriminate]. inversion Hexec; subst. simpl.
    unfold update_api_key.
    destruct (negb (truthy_opt truthy_str api_key)); [apply grows_refl|].
    destruct verdict; [|apply grows_refl].
    destruct (session_by_token (w_db w) token); [apply grows_refl|].
    simpl. rewrite map_app. eexists. reflexivity.
  - destruct ((w_clock w <=? t_used) && (t_used <=? t_chat) && (t_chat <=? t_msg))%bool;
      [|discriminate].
    pose proof (stream_chat_sessions (w_db w) req t_used t_chat t_msg) as Hs.
    destruct (stream_chat F (w_db w) req t_used t_chat t_msg) as [db h].
    inversion Hexec; subst. simpl in *. now apply grows_same.
  - destruct (nth_error (w_pending w) i) as [g|]; [|discriminate].
    destruct (w_clock w <=? now); [|discriminate].
    inversion Hexec; subst. simpl.
    destruct (generate_frame (w_db w) g stream now) as (Hs & _).
    apply grows_same. now rewrite Hs.
Qed.

Lemma run_sessions (evs : list (event F)) (w w' : World) :
  run F w evs = Some w' ->
  grows (map but_last_used (user_sessions (w_db w)))
        (map but_last_used (user_sessions (w_db w'))).
Proof.
  revert w. induction evs as [|ev evs IH]; simpl; intros w Hrun.
  - inversion Hrun; subst. apply grows_refl.
  - destruct (exec F w ev) as [w1|] eqn:Hexec; [|discriminate].
    eapply grows_trans; [exact (exec_sessions _ _ _ Hexec) | exact (IH _ Hrun)].
Qed.
End SessionLifetime.

(** X7.  No request deletes or re-keys a session.  From any state of the
    service and through any sequence of prompt edits and deletions,
    registrations, chat requests and drained streams, a token that named a
    session still names one, with the same primary key, encrypted blob and
    creation time (only [last_used] may differ), so resolving it returns
    what it returned before. *)
Theorem sessions_outlive_every_request (F : Fernet) (evs : list (event F)) (w w' : World)
    (sid : string) (s : UserSession.t) :
  run F w evs = Some w' ->
  session_by_token (w_db w) sid = Some s ->
  (exists s', session_by_token (w_db w') sid = Some s' /\
              but_last_used s' = but_last_used s) /\
  (forall now now',
     snd (get_api_key_from_session F (w_db w') (Some sid) now') =
     snd (get_api_key_from_session F (w_db w) (Some sid) now)).
Proof.
  intros Hrun Hs.
  destruct (session_still_found _ _ sid s (run_sessions F evs w w' Hrun) Hs)
    as (s' & Hs' & Hsame).
  split; [exists s'; auto|].
  intros now now'. unfold get_api_key_from_session. simpl.
  destruct (truthy_str sid); simpl; [|reflexivity].
  rewrite Hs, Hs'. simpl.
  apply (f_equal UserSession.encrypted_api_key) in Hsame. simpl in Hsame.
  now rewrite Hsame.
Qed.

Lemma sessions_outlive_every_request_witness :
  exists w,
    run Toy.cipher
      {| w_db := Toy.db; w_pending := []; w_appended := [Toy.first_message]; w_clock := 20 |}
      [DeletePrompt Toy.cipher 1;
       StreamChat Toy.cipher Toy.start_chat 30 31 32;
       UpdateApiKey Toy.cipher (Some "AIza-2") ProbeOk "tok-2" tt 40 41] = Some w /\
    forall now now',
      snd (get_api_key_from_session Toy.cipher (w_db w) (Some "tok-1") now') =
      snd (get_api_key_from_session Toy.cipher Toy.db (Some "tok-1") now).
Proof.
  eexists. split; [vm_compute; reflexivity|].
  refine (proj2 (sessions_outlive_every_request Toy.cipher
                   [DeletePrompt Toy.cipher 1;
                    StreamChat Toy.cipher Toy.start_chat 30 31 32;
                    UpdateApiKey Toy.cipher (Some "AIza-2") ProbeOk "tok-2" tt 40 41]
                   {| w_db := Toy.db; w_pending := []; w_appended := [Toy.first_message];
                      w_clock := 20 |} _ "tok-1" Toy.session _ eq_refl)).
  vm_compute. reflexivity.
Defined.

(** ** Keys and ownership in the running service *)

Lemma ascend_filter {A} (key : A -> Z) (f : A -> bool) (l : list A) :
  StronglySorted Z.lt (map key l) -> StronglySorted Z.lt (map key (filter f l)).
Proof.
  intros H. eapply subseq_sorted; [|exact H]. apply subseq_map, subseq_filter.
Qed.

Lemma ascend_add {A} (key : A -> Z) (l : list A) (x : A) :
  key x = next_id (map key l) ->
  StronglySorted Z.lt (map key l) -> StronglySorted Z.lt (map key (l ++ [x])).
Proof.
  intros Hx H. rewrite map_app. simpl. rewrite Hx.
  apply sorted_lt_snoc; [exact H | apply next_id_above].
Qed.

Lemma ascend_NoDup (l : list Z) : StronglySorted Z.lt l -> NoDup l.
Proof.
  induction 1 as [|x l HS IH Hx]; constructor; [|exact IH].
  intros Hin. rewrite Forall_forall in Hx. specialize (Hx x Hin). lia.
Qed.

Lemma token_free (db : DB) (token : string) :
  session_by_token db token = None ->
  ~ In token (map UserSession.session_id (user_sessions db)).
Proof.
  unfold session_by_token. intros Hnone Hin.
  apply in_map_iff in Hin. destruct Hin as (s & Hs & Hin).
  apply (find_none _ _ Hnone) in Hin. simpl in Hin.
  rewrite Hs, String.eqb_refl in Hin. discriminate.
Qed.

Lemma NoDup_snoc {A} (l : list A) (x : A) : NoDup l -> ~ In x l -> NoDup (l ++ [x]).
Proof.
  intros Hl Hx. apply NoDup_app; [exact Hl | repeat constructor; intros [] |].
  intros a Ha [<-|[]]. contradiction.
Qed.

Lemma touch_keys (pk : Z) (now : datetime) (l : list UserSession.t) :
  map UserSession.id (map (touch pk now) l) = map UserSession.id l /\
  map UserSession.session_id (map (touch pk now) l) = map UserSession.session_id l.
Proof.
  rewrite !map_map. split; apply map_ext; intros s; unfold touch;
    destruct (UserSession.id s =? pk); reflexivity.
Qed.

Section Integrity.
Variable F : Fernet.

Lemma create_prompt_sound (db : DB) (title content : string) (category : option string)
    (t_created t_updated : datetime) :
  sound db -> sound (fst (create_prompt db title content category t_created t_updated)).
Proof.
  intros [(Hs & Hp & Hc & Hm) Ht]. unfold sound, keys_ascend, tokens_distinct. simpl.
  repeat split; auto. now apply ascend_add.
Qed.

Lemma update_prompt_sound (db : DB) (pk : Z) (title content category : option string)
    (now : datetime) :
  sound db -> sound (fst (update_prompt db pk title content category now)).
Proof.
  intros [(Hs & Hp & Hc & Hm) Ht]. unfold update_prompt.
  destruct (find _ (prompts db)); simpl; [|repeat split; auto].
  unfold sound, keys_ascend, tokens_distinct. simpl. repeat split; auto.
  rewrite map_map.
  rewrite (map_ext _ Prompt.id); [exact Hp|].
  intros q. destruct (Prompt.id q =? pk); reflexivity.
Qed.

Lemma delete_prompt_sound (db : DB) (pk : Z) :
  sound db -> sound (fst (delete_prompt db pk)).
Proof.
  intros [(Hs & Hp & Hc & Hm) Ht]. unfold delete_prompt.
  destruct (find _ (prompts db)); simpl; [|repeat split; auto].
  unfold sound, keys_ascend, tokens_distinct. simpl.
  repeat split; auto using ascend_filter.
Qed.

Lemma update_api_key_sound (db : DB) (api_key : option string) (verdict : probe)
    (token : string) (iv : nonce F) (t_created t_used : datetime) :
  sound db -> sound (fst (update_api_key F db api_key verdict token iv t_created t_used)).
Proof.
  intros [(Hs & Hp & Hc & Hm) Ht]. unfold update_api_key.
  destruct (negb (truthy_opt truthy_str api_key)); [repeat split; auto|].
  destruct verdict; [|repeat split; auto].
  destruct (session_by_token db token) eqn:Hfree; [repeat split; auto|].
  unfold sound, keys_ascend, tokens_distinct. simpl. repeat split; auto.
  - now apply ascend_add.
  - rewrite map_app. simpl. apply NoDup_snoc; [exact Ht | now apply token_free].
Qed.

Lemma resolve_sound (db : DB) (header : option string) (now : datetime) :
  sound db -> sound (fst (get_api_key_from_session F db header now)).
Proof.
  intros [(Hs & Hp & Hc & Hm) Ht]. unfold get_api_key_from_session.
  destruct (negb (truthy_opt truthy_str header)); [repeat split; auto|].
  destruct (session_by_token db (get_default header "")) as [s|]; [|repeat split; auto].
  unfold sound, keys_ascend, tokens_distinct. simpl.
  destruct (touch_keys (UserSession.id s) now (user_sessions db)) as [E1 E2].
  rewrite E1, E2. repeat split; auto.
Qed.

Lemma add_message_sound (db : DB) (pk : Z) (role content : string) (now : datetime) :
  sound db -> sound (add_message db (new_message db pk role content now)).
Proof.
  intros [(Hs & Hp & Hc & Hm) Ht]. unfold sound, keys_ascend, tokens_distinct. simpl.
  repeat split; auto. now apply ascend_add.
Qed.

Lemma stream_chat_sound (db : DB) (req : chat_request) (t_used t_chat t_msg : datetime) :
  sound db -> sound (fst (stream_chat F db req t_used t_chat t_msg)).
Proof.
  intros H. unfold stream_chat.
  pose proof (resolve_sound db (rq_session_id req) t_used H) as H1.
  destruct (get_api_key_from_session F db (rq_session_id req) t_used) as [db1 k].
  simpl in H1. destruct (negb (truthy_opt truthy_str k)); [exact H1|].
  assert (H2 : sound (fst (resolve_chat db1 req t_chat))).
  { unfold resolve_chat.
    destruct (truthy_opt truthy_int (rq_chat_id req)); [exact H1|].
    destruct (truthy_opt truthy_int (rq_prompt_id req)); [|exact H1].
    destruct H1 as [(Hs & Hp & Hc & Hm) Ht].
    unfold sound, keys_ascend, tokens_distinct. simpl. repeat split; auto.
    now apply ascend_add. }
  destruct (resolve_chat db1 req t_chat) as [db2 chat]. simpl in *.
  destruct chat; simpl; [now apply add_message_sound | exact H2].
Qed.

Lemma generate_sound (db : DB) (g : generator) (stream : provider_stream) (now : datetime) :
  sound db -> sound (dr_db (generate db g stream now)).
Proof.
  intros H. unfold generate.
  destruct (relay (chunks stream) "") as [total events].
  destruct (ending stream); [|exact H].
  destruct (g_chat g) as [pk|]; [|exact H].
  destruct (truthy_str total); [|exact H].
  destruct (chat_by_id db pk); [|exact H].
  simpl. now apply add_message_sound.
Qed.

Lemma exec_sound (w w' : World) (ev : event F) :
  sound (w_db w) -> exec F w ev = Some w' -> sound (w_db w').
Proof.
  intros H Hexec.
  destruct ev as [title content category t_created t_updated
                 | pk title content category now | pk
                 | api_key verdict token iv t_created t_used'
                 | req t_used t_chat t_msg | i stream now];
    simpl in Hexec.
  - destruct ((w_clock w <=? t_created) && (t_created <=? t_updated))%bool eqn:Hle;
      [|discriminate]. inversion Hexec; subst.
    now apply create_prompt_sound.
  - destruct (w_clock w <=? now); [|discriminate]. inversion Hexec; subst.
    now apply update_prompt_sound.
  - inversion Hexec; subst. now apply delete_prompt_sound.
  - destruct ((w_clock w <=? t_created) && (t_created <=? t_used'))%bool eqn:Hle;
      [|discriminate]. inversion Hexec; subst.
    now apply update_api_key_sound.
  - destruct ((w_clock w <=? t_used) && (t_used <=? t_chat) && (t_chat <=? t_msg))%bool;
      [|discriminate].
    pose proof (stream_chat_sound (w_db w) req t_used t_chat t_msg H) as Hs.
    destruct (stream_chat F (w_db w) req t_used t_chat t_msg) as [db h].
    inversion Hexec; subst. exact Hs.
  - destruct (nth_error (w_pending w) i) as [g|]; [|discriminate].
    destruct (w_clock w <=? now); [|discriminate].
    inversion Hexec; subst. now apply generate_sound.
Qed.

Lemma run_sound (evs : list (event F)) (w w' : World) :
  sound (w_db w) -> run F w evs = Some w' -> sound (w_db w').
Proof.
  revert w. induction evs as [|ev evs IH]; simpl; intros w H Hrun.
  - inversion Hrun; subst. exact H.
  - destruct (exec F w ev) as [w1|] eqn:Hexec; [|discriminate].
    apply (IH w1); [|exact Hrun]. eapply exec_sound; eassumption.
Qed.
End Integrity.

(** X8.  In every state the service reaches from the empty database, by any
    sequence of requests and drained streams, the rows of each of the four
    tables have pairwise distinct primary keys, ascending in table order,
    and no two sessions hold the same token: a registration whose token is
    taken is refused, and every insert takes a key above all present. *)
Theorem keys_and_tokens_stay_unique (F : Fernet) (evs : list (event F)) (w : World) :
  run F initial evs = Some w ->
  keys_ascend (w_db w) /\
  NoDup (map UserSession.session_id (user_sessions (w_db w))) /\
  NoDup (map UserSession.id (user_sessions (w_db w))) /\
  NoDup (map Prompt.id (prompts (w_db w))) /\
  NoDup (map Chat.id (chats (w_db w))) /\
  NoDup (map Message.id (messages (w_db w))).
Proof.
  intros Hrun.
  assert (H0 : sound (w_db initial)).
  { repeat split; simpl; constructor. }
  destruct (run_sound F evs initial w H0 Hrun) as [Hk Ht].
  split; [exact Hk|]. split; [exact Ht|].
  destruct Hk as (Hs & Hp & Hc & Hm).
  repeat split; now apply ascend_NoDup.
Qed.

Lemma keys_and_tokens_stay_unique_witness :
  exists w,
    run Toy.cipher initial (session_events Toy.cipher tt) = Some w /\
    NoDup (map Message.id (messages (w_db w))) /\
    length (messages (w_db w)) = 4%nat.
Proof.
  eexists. split; [vm_compute; reflexivity|]. split; [|reflexivity].
  refine (proj2 (proj2 (proj2 (proj2 (proj2
            (keys_and_tokens_stay_unique Toy.cipher (session_events Toy.cipher tt) _ _)))))).
  vm_compute. reflexivity.
Defined.

Section Ownership.
Variable F : Fernet.

Lemma owned_more_chats (db db' : DB) :
  messages db' = messages db ->
  (forall c, In c (chats db) -> In c (chats db')) ->
  messages_owned db -> messages_owned db'.
Proof.
  unfold messages_owned. intros Hm Hc H. rewrite Hm.
  eapply Forall_impl; [|exact H]. simpl. intros m (c & Hin & Hid).
  exists c. auto.
Qed.

Lemma owned_add_message (db : DB) (c : Chat.t) (role content : string) (now : datetime) :
  In c (chats db) ->
  messages_owned db ->
  messages_owned (add_message db (new_message db (Chat.id c) role content now)).
Proof.
  unfold messages_owned. intros Hc H. simpl.
  apply Forall_app. split; [exact H|].
  constructor; [|constructor]. exists c. simpl. auto.
Qed.

Lemma delete_prompt_owned (db : DB) (pk : Z) :
  messages_owned db -> messages_owned (fst (delete_prompt db pk)).
Proof.
  unfold delete_prompt. destruct (find _ (prompts db)); simpl; [|auto].
  unfold messages_owned. simpl. intros H.
  rewrite Forall_forall in *. intros m Hm.
  apply filter_In in Hm. destruct Hm as [Hm Hkeep].
  destruct (H m Hm) as (c & Hc & Hid).
  exists c. split; [|exact Hid].
  apply filter_In. split; [exact Hc|].
  destruct (Chat.prompt_id c =? pk) eqn:E; [|reflexivity].
  exfalso. apply negb_true_iff in Hkeep.
  assert (Hex : existsb (fun c0 => Chat.id c0 =? Message.chat_id m)
                        (filter (fun c0 => Chat.prompt_id c0 =? pk) (chats db)) = true).
  { apply existsb_exists. exists c. split; [|now apply Z.eqb_eq].
    apply filter_In. auto. }
  congruence.
Qed.

Lemma resolve_chat_owned (db : DB) (req : chat_request) (now : datetime) :
  messages_owned db ->
  messages_owned (fst (resolve_chat db req now)) /\
  (forall c, snd (resolve_chat db req now) = Some c ->
     In c (chats (fst (resolve_chat db req now)))).
Proof.
  intros H. unfold resolve_chat.
  destruct (truthy_opt truthy_int (rq_chat_id req)); simpl.
  - split; [exact H|]. intros c Hc. unfold chat_by_id in Hc.
    apply find_some in Hc. tauto.
  - destruct (truthy_opt truthy_int (rq_prompt_id req)); simpl.
    + split.
      * apply (owned_more_chats db); [reflexivity | | exact H].
        intros c Hc. simpl. apply in_or_app. auto.
      * intros c Hc. inversion Hc; subst. apply in_or_app. right. now left.
    + split; [exact H | discriminate].
Qed.

Lemma stream_chat_owned (db : DB) (req : chat_request) (t_used t_chat t_msg : datetime) :
  messages_owned db -> messages_owned (fst (stream_chat F db req t_used t_chat t_msg)).
Proof.
  intros H. unfold stream_chat.
  destruct (resolve_frame F db (rq_session_id req) t_used) as (_ & Hc & Hm & _).
  destruct (get_api_key_from_session F db (rq_session_id req) t_used) as [db1 k].
  simpl in *.
  assert (H1 : messages_owned db1).
  { apply (owned_more_chats db); auto. intros c. now rewrite Hc. }
  destruct (negb (truthy_opt truthy_str k)); [exact H1|].
  destruct (resolve_chat_owned db1 req t_chat H1) as [H2 Hin].
  destruct (resolve_chat db1 req t_chat) as [db2 chat]. simpl in *.
  destruct chat as [c|]; simpl; [|exact H2].
  apply owned_add_message; auto.
Qed.

Lemma generate_owned (db : DB) (g : generator) (stream : provider_stream) (now : datetime) :
  messages_owned db -> messages_owned (dr_db (generate db g stream now)).
Proof.
  intros H. unfold generate.
  destruct (relay (chunks stream) "") as [total events].
  destruct (ending stream); [|exact H].
  destruct (g_chat g) as [pk|]; [|exact H].
  destruct (truthy_str total); [|exact H].
  destruct (chat_by_id db pk) as [c|] eqn:Hc; [|exact H].
  simpl. apply owned_add_message; [|exact H].
  unfold chat_by_id in Hc. apply find_some in Hc. tauto.
Qed.

Lemma exec_owned (w w' : World) (ev : event F) :
  messages_owned (w_db w) -> exec F w ev = Some w' -> messages_owned (w_db w').
Proof.
  intros H Hexec.
  destruct ev as [title content category t_created t_updated
                 | pk title content category now | pk
                 | api_key verdict token iv t_created t_used'
                 | req t_used t_chat t_msg | i stream now];
    simpl in Hexec.
  - destruct ((w_clock w <=? t_created) && (t_created <=? t_updated))%bool eqn:Hle;
      [|discriminate]. inversion Hexec; subst. exact H.
  - destruct (w_clock w <=? now); [|discriminate]. inversion Hexec; subst. simpl.
    unfold update_prompt. destruct (find _ (prompts (w_db w))); exact H.
  - inversion Hexec; subst. now apply delete_prompt_owned.
  - destruct ((w_clock w <=? t_created) && (t_created <=? t_used'))%bool eqn:Hle;
      [|discriminate]. inversion Hexec; subst. simpl.
    unfold update_api_key.
    destruct (negb (truthy_opt truthy_str api_key)); [exact H|].
    destruct verdict; [|exact H].
    destruct (session_by_token (w_db w) token); exact H.
  - destruct ((w_clock w <=? t_used) && (t_used <=? t_chat) && (t_chat <=? t_msg))%bool;
      [|discriminate].
    pose proof (stream_chat_owned (w_db w) req t_used t_chat t_msg H) as Hs.
    destruct (stream_chat F (w_db w) req t_used t_chat t_msg) as [db h].
    inversion Hexec; subst. exact Hs.
  - destruct (nth_error (w_pending w) i) as [g|]; [|discriminate].
    destruct (w_clock w <=? now); [|discriminate].
    inversion Hexec; subst. now apply generate_owned.
Qed.

Lemma run_owned (evs : list (event F)) (w w' : World) :
  messages_owned (w_db w) -> run F w evs = Some w' -> messages_owned (w_db w').
Proof.
  revert w. induction evs as [|ev evs IH]; simpl; intros w H Hrun.
  - inversion Hrun; subst. exact H.
  - destruct (exec F w ev) as [w1|] eqn:Hexec; [|discriminate].
    apply (IH w1); [|exact Hrun]. eapply exec_owned; eassumption.
Qed.
End Ownership.

(** X9.  No Message is left without its Chat.  In every state the service
    reaches from the empty database, through any interleaving of requests,
    prompt deletions and drained streams, every Message row carries the key
    of a Chat row that exists: the handler writes only to a chat it found
    or created, the generator only to a chat that still has its row, and
    deleting a prompt takes the messages of its chats along. *)
Theorem every_message_has_its_chat (F : Fernet) (evs : list (event F)) (w : World)
    (m : Message.t) :
  run F initial evs = Some w ->
  In m (messages (w_db w)) ->
  exists c, chat_by_id (w_db w) (Message.chat_id m) = Some c /\
            Chat.id c = Message.chat_id m.
Proof.
  intros Hrun Hm.
  assert (H0 : messages_owned (w_db initial)) by constructor.
  pose proof (run_owned F evs initial w H0 Hrun) as H.
  unfold messages_owned in H. rewrite Forall_forall in H.
  destruct (H m Hm) as (c & Hc & Hid).
  unfold chat_by_id.
  destruct (find (fun c0 => Chat.id c0 =? Message.chat_id m) (chats (w_db w))) as [c'|] eqn:E.
  - exists c'. split; [reflexivity|]. apply find_holds in E. now apply Z.eqb_eq in E.
  - apply (find_none _ _ E) in Hc. simpl in Hc. rewrite Hid, Z.eqb_refl in Hc. discriminate.
Qed.

Lemma every_message_has_its_chat_witness :
  exists w c,
    run Toy.cipher initial (session_events Toy.cipher tt) = Some w /\
    chat_by_id (w_db w) 1 = Some c /\ Chat.id c = 1.
Proof.
  eexists. 
  destruct (every_message_has_its_chat Toy.cipher (session_events Toy.cipher tt)
              (match run Toy.cipher initial (session_events Toy.cipher tt) with
               | Some w => w | None => initial end)
              (new_message empty_db 1 "user" "good morning" 21))
    as (c & Hc & Hid).
  - vm_compute. reflexivity.
  - vm_compute. left. reflexivity.
  - exists c. split; [vm_compute; reflexivity|]. split; [exact Hc | exact Hid].
Defined.

(** ** Listings: newest first *)

Lemma insert_by_perm {A} (key : A -> Z) (x : A) (l : list A) :
  Permutation (insert_by key x l) (x :: l).
Proof.
  induction l as [|y l IH]; simpl; [reflexivity|].
  destruct (key y <=? key x); [reflexivity|].
  rewrite IH. apply perm_swap.
Qed.

Lemma insert_by_descending {A} (key : A -> Z) (x : A) (l : list A) :
  descending key l -> descending key (insert_by key x l).
Proof.
  unfold descending. induction 1 as [|y l HS IH Hy]; simpl.
  - repeat constructor.
  - destruct (key y <=? key x) eqn:E.
    + apply Z.leb_le in E. constructor; [now constructor|].
      constructor; [exact E|].
      eapply Forall_impl; [|exact Hy]. cbv beta. intros z Hz. lia.
    + apply Z.leb_gt in E. constructor; [exact IH|].
      eapply Permutation_Forall; [symmetry; apply insert_by_perm|].
      constructor; [lia | exact Hy].
Qed.

Lemma sort_by_perm {A} (key : A -> Z) (l : list A) :
  Permutation (fold_right (insert_by key) [] l) l.
Proof.
  induction l as [|x l IH]; simpl; [reflexivity|].
  rewrite insert_by_perm. now constructor.
Qed.

Lemma sort_by_descending {A} (key : A -> Z) (l : list A) :
  descending key (fold_right (insert_by key) [] l).
Proof.
  induction l as [|x l IH]; simpl; [constructor | now apply insert_by_descending].
Qed.

Lemma order_chats_by (l : list Chat.t) :
  order_by_created_at_desc l = fold_right (insert_by Chat.created_at) [] l.
Proof.
  unfold order_by_created_at_desc. induction l as [|c l IH]; simpl; [reflexivity|].
  rewrite IH. generalize (fold_right (insert_by Chat.created_at) [] l).
  intros r. induction r as [|y r IHr]; simpl; [reflexivity|].
  destruct (Chat.created_at y <=? Chat.created_at c); [reflexivity | now rewrite IHr].
Qed.

Lemma order_prompts_by (l : list Prompt.t) :
  newest_first l = fold_right (insert_by Prompt.created_at) [] l.
Proof.
  unfold newest_first. induction l as [|c l IH]; simpl; [reflexivity|].
  rewrite IH. generalize (fold_right (insert_by Prompt.created_at) [] l).
  intros r. induction r as [|y r IHr]; simpl; [reflexivity|].
  destruct (Prompt.created_at y <=? Prompt.created_at c); [reflexivity | now rewrite IHr].
Qed.

Lemma descending_map {A B} (f : A -> B) (key : B -> Z) (l : list A) :
  descending (fun a => key (f a)) l -> descending key (map f l).
Proof.
  unfold descending. induction 1 as [|x l HS IH Hx]; simpl; constructor; [exact IH|].
  apply Forall_map. exact Hx.
Qed.

(** X10.  For an identifier SQLite can hold, [get_chats] returns exactly the
    chats of the prompt asked for, each once, newest first: no chat in the
    list comes before one created later, the list is a rearrangement of the
    prompt's rows of the Chat table, and a prompt without chats, or such an
    identifier of no prompt, gives the empty list rather than a 404. *)
Theorem get_chats_newest_first (db : DB) (prompt_id : Z) :
  sqlite_int prompt_id ->
  descending cd_created_at (get_chats db prompt_id) /\
  Permutation (get_chats db prompt_id)
    (map (Chat_to_dict db) (filter (fun c => Chat.prompt_id c =? prompt_id) (chats db))) /\
  Forall (fun d => cd_prompt_id d = prompt_id) (get_chats db prompt_id) /\
  ((forall c, In c (chats db) -> Chat.prompt_id c <> prompt_id) ->
   get_chats db prompt_id = []).
Proof.
  intros _. unfold get_chats. rewrite order_chats_by.
  set (rows := filter (fun c => Chat.prompt_id c =? prompt_id) (chats db)).
  pose proof (sort_by_perm Chat.created_at rows) as Hperm.
  repeat split.
  - apply descending_map. simpl. apply sort_by_descending.
  - apply Permutation_map. exact Hperm.
  - apply Forall_map. eapply Permutation_Forall; [symmetry; exact Hperm|].
    apply Forall_forall. intros c Hc. simpl.
    apply filter_In in Hc. destruct Hc as [_ Hc]. now apply Z.eqb_eq.
  - intros Hnone.
    assert (E : rows = []).
    { unfold rows. destruct (filter _ (chats db)) as [|c r] eqn:Ef; [reflexivity|].
      assert (Hc : In c (filter (fun c => Chat.prompt_id c =? prompt_id) (chats db)))
        by (rewrite Ef; now left).
      apply filter_In in Hc. destruct Hc as [Hin Hp]. apply Z.eqb_eq in Hp.
      now apply Hnone in Hin. }
    rewrite E. reflexivity.
Qed.

Lemma get_chats_newest_first_witness :
  get_chats Shelf.db 9 = [] /\
  Permutation (get_chats Shelf.db 2)
    [{| cd_id := 2; cd_prompt_id := 2; cd_created_at := 22;
        cd_messages :=
          [{| Message.d_id := 2; Message.d_role := "user";
              Message.d_content := "def f(): pass"; Message.d_created_at := 22 |};
           {| Message.d_id := 3; Message.d_role := "assistant";
              Message.d_content := "Looks fine."; Message.d_created_at := 23 |}] |}].
Proof.
  assert (H9 : sqlite_int 9) by (unfold sqlite_int; lia).
  assert (H2 : sqlite_int 2) by (unfold sqlite_int; lia).
  destruct (get_chats_newest_first Shelf.db 9 H9) as (_ & _ & _ & Hempty).
  destruct (get_chats_newest_first Shelf.db 2 H2) as (_ & Hperm & _).
  split.
  - apply Hempty. intros c [<-|[<-|[]]]; discriminate.
  - exact Hperm.
Defined.

(** X11.  [get_prompts] lists prompts newest first.  Without a category, or
    with one that strips to nothing, it lists every prompt, each once.  With
    a category it lists exactly the prompts whose own category is not empty
    and equals the requested one after both are lower-cased. *)
Theorem get_prompts_filters_by_category (lower strip : string -> string) (db : DB)
    (category_arg : option string) :
  let category := strip (get_default category_arg "") in
  let listed := get_prompts lower strip db category_arg in
  descending Prompt.created_at listed /\
  (category = "" -> Permutation listed (prompts db)) /\
  (category <> "" ->
     forall p, In p listed <->
               In p (prompts db) /\ Prompt.category p <> "" /\
               lower (Prompt.category p) = lower category).
Proof.
  cbv zeta. unfold get_prompts. rewrite order_prompts_by.
  pose proof (sort_by_perm Prompt.created_at (prompts db)) as Hperm.
  pose proof (sort_by_descending Prompt.created_at (prompts db)) as Hdesc.
  set (all_prompts := fold_right (insert_by Prompt.created_at) [] (prompts db)) in *.
  destruct (truthy_str (strip (get_default category_arg ""))) eqn:E.
  - apply truthy_str_true in E. split; [|split].
    + unfold descending in *. eapply subseq_sorted; [apply subseq_filter | exact Hdesc].
    + intros H. contradiction.
    + intros _ p. rewrite filter_In. unfold category_matches.
      rewrite andb_true_iff, truthy_str_true, String.eqb_eq.
      split.
      * intros [Hin H]. split; [|exact H]. eapply Permutation_in; eassumption.
      * intros [Hin H]. split; [|exact H].
        eapply Permutation_in; [symmetry; exact Hperm | exact Hin].
  - apply truthy_str_false in E. split; [exact Hdesc|]. split.
    + intros _. exact Hperm.
    + intros H. contradiction.
Qed.

Lemma get_prompts_filters_by_category_witness :
  In {| Prompt.id := 3; Prompt.title := "Summarise"; Prompt.content := "Summarise the text.";
        Prompt.created_at := 9; Prompt.updated_at := 9; Prompt.category := "writing" |}
     (get_prompts Text.lower Text.strip Text.tiles (Some " WRITING ")).
Proof.
  destruct (get_prompts_filters_by_category Text.lower Text.strip Text.tiles
              (Some " WRITING ")) as (_ & _ & H).
  apply H.
  - vm_compute. discriminate.
  - split; [right; right; left; reflexivity|]. split; [discriminate | reflexivity].
Defined.

Example get_prompts_ignores_case :
  map Prompt.id (get_prompts Text.lower Text.strip Text.tiles (Some " WRITING ")) = [3; 1] /\
  map Prompt.id (get_prompts Text.lower Text.strip Text.tiles (Some "  ")) = [3; 2; 1] /\
  map Prompt.id (get_prompts Text.lower Text.strip Text.tiles None) = [3; 2; 1].
Proof. vm_compute. repeat split. Qed.

(** ** Prompts: create, edit, delete *)

Lemma filter_filter_none {A} (f g : A -> bool) (l : list A) :
  (forall x, In x l -> f x = true -> g x = false) -> filter f (filter g l) = [].
Proof.
  induction l as [|a l IH]; simpl; intros H; [reflexivity|].
  destruct (g a) eqn:Eg; simpl.
  - destruct (f a) eqn:Ef.
    + rewrite (H a (or_introl eq_refl) Ef) in Eg. discriminate.
    + apply IH. intros x Hx. apply H. now right.
  - apply IH. intros x Hx. apply H. now right.
Qed.

Lemma filter_filter_all {A} (f g : A -> bool) (l : list A) :
  (forall x, In x l -> f x = true -> g x = true) -> filter f (filter g l) = filter f l.
Proof.
  induction l as [|a l IH]; simpl; intros H; [reflexivity|].
  assert (IH' : filter f (filter g l) = filter f l).
  { apply IH. intros x Hx. apply H. now right. }
  destruct (f a) eqn:Ef.
  - rewrite (H a (or_introl eq_refl) Ef). simpl. rewrite Ef. now f_equal.
  - destruct (g a); simpl; [rewrite Ef|]; exact IH'.
Qed.

Lemma find_above (l : list Prompt.t) :
  find (fun p => Prompt.id p =? next_id (map Prompt.id l)) l = None /\
  filter (fun p => negb (Prompt.id p =? next_id (map Prompt.id l))) l = l.
Proof.
  pose proof (next_id_above (map Prompt.id l)) as H.
  generalize dependent (next_id (map Prompt.id l)). intros n H.
  induction l as [|a l IH]; simpl; [split; reflexivity|].
  inversion H; subst.
  assert (E : (Prompt.id a =? n) = false) by (apply Z.eqb_neq; lia).
  rewrite E. simpl. destruct (IH H3) as [IH1 IH2]. split; [exact IH1 | now rewrite IH2].
Qed.

(** The messages of a chat after a prompt was deleted. *)
Lemma delete_prompt_chat_messages (db : DB) (pk : Z) (c : Chat.t) :
  NoDup (map Chat.id (chats db)) ->
  In c (chats db) ->
  chat_messages (fst (delete_prompt db pk)) (Chat.id c) =
  match find (fun p => Prompt.id p =? pk) (prompts db) with
  | Some _ => if Chat.prompt_id c =? pk then [] else chat_messages db (Chat.id c)
  | None => chat_messages db (Chat.id c)
  end.
Proof.
  intros Hnd Hc. unfold delete_prompt.
  destruct (find _ (prompts db)); simpl; [|reflexivity].
  unfold chat_messages. simpl.
  destruct (Chat.prompt_id c =? pk) eqn:E.
  - apply filter_filter_none. intros m _ Hm. apply negb_false_iff.
    apply existsb_exists. exists c. split.
    + apply filter_In. auto.
    + apply Z.eqb_eq in Hm. now apply Z.eqb_eq.
  - apply filter_filter_all. intros m _ Hm. apply negb_true_iff.
    destruct (existsb _ _) eqn:Ex; [|reflexivity].
    apply existsb_exists in Ex. destruct Ex as (c0 & Hc0 & Hid).
    apply filter_In in Hc0. destruct Hc0 as [Hin0 Hp0].
    apply Z.eqb_eq in Hid, Hm.
    assert (c0 = c).
    { apply (same_key_same_row Chat.id (chats db)); auto. congruence. }
    subst c0. congruence.
Qed.

(** X12.  Deleting a prompt removes the prompt, its chats and the messages
    of those chats, and nothing else: the other prompts and the chats of
    other prompts stay, with distinct chat keys each remaining chat reads
    back the messages it had, the listing of every other prompt is what it
    was, the listing of the deleted prompt is empty, and the session table
    is untouched. *)
Theorem delete_prompt_cascade_is_isolated (db : DB) (pk other : Z) (p : Prompt.t) :
  find (fun p => Prompt.id p =? pk) (prompts db) = Some p ->
  NoDup (map Chat.id (chats db)) ->
  let db' := fst (delete_prompt db pk) in
  snd (delete_prompt db pk) = Json 204 [] /\
  (forall q, In q (prompts db') <-> In q (prompts db) /\ Prompt.id q <> pk) /\
  (forall c, In c (chats db') <-> In c (chats db) /\ Chat.prompt_id c <> pk) /\
  (forall c, In c (chats db) -> Chat.prompt_id c = pk ->
     chat_messages db' (Chat.id c) = []) /\
  (forall c, In c (chats db) -> Chat.prompt_id c <> pk ->
     chat_messages db' (Chat.id c) = chat_messages db (Chat.id c)) /\
  get_chats db' pk = [] /\
  (other <> pk -> get_chats db' other = get_chats db other) /\
  user_sessions db' = user_sessions db.
Proof.
  intros Hfind Hnd. cbv zeta.
  assert (Hmsgs : forall c, In c (chats db) ->
            chat_messages (fst (delete_prompt db pk)) (Chat.id c) =
            if Chat.prompt_id c =? pk then [] else chat_messages db (Chat.id c)).
  { intros c Hc. rewrite (delete_prompt_chat_messages db pk c Hnd Hc), Hfind. reflexivity. }
  assert (Hchats : chats (fst (delete_prompt db pk)) =
                   filter (fun c => negb (Chat.prompt_id c =? pk)) (chats db)).
  { unfold delete_prompt. rewrite Hfind. reflexivity. }
  split; [unfold delete_prompt; rewrite Hfind; reflexivity|].
  split.
  { intros q. unfold delete_prompt. rewrite Hfind. simpl. rewrite filter_In.
    rewrite negb_true_iff, Z.eqb_neq. tauto. }
  split.
  { intros c. rewrite Hchats, filter_In, negb_true_iff, Z.eqb_neq. tauto. }
  split.
  { intros c Hc Hp. rewrite (Hmsgs c Hc). apply Z.eqb_eq in Hp. now rewrite Hp. }
  split.
  { intros c Hc Hp. rewrite (Hmsgs c Hc). apply Z.eqb_neq in Hp. now rewrite Hp. }
  split.
  { unfold get_chats. rewrite Hchats.
    rewrite filter_filter_none; [reflexivity|].
    intros c _ Hp. now rewrite Hp. }
  split.
  { intros Hother. unfold get_chats. rewrite Hchats.
    rewrite filter_filter_all.
    2:{ intros c _ Hp. apply Z.eqb_eq in Hp. apply negb_true_iff, Z.eqb_neq. congruence. }
    apply map_ext_in. intros c Hc.
    rewrite order_chats_by in Hc.
    apply (Permutation_in _ (sort_by_perm Chat.created_at _)) in Hc.
    apply filter_In in Hc. destruct Hc as [Hin Hp]. apply Z.eqb_eq in Hp.
    unfold Chat_to_dict. f_equal. f_equal.
    rewrite (Hmsgs c Hin).
    assert (E : (Chat.prompt_id c =? pk) = false) by (apply Z.eqb_neq; congruence).
    now rewrite E. }
  unfold delete_prompt. rewrite Hfind. reflexivity.
Qed.

Lemma delete_prompt_cascade_is_isolated_witness :
  get_chats (fst (delete_prompt Shelf.db 1)) 1 = [] /\
  get_chats (fst (delete_prompt Shelf.db 1)) 2 = get_chats Shelf.db 2.
Proof.
  assert (Hnd : NoDup (map Chat.id (chats Shelf.db))).
  { apply ascend_NoDup. simpl. repeat constructor. }
  destruct (delete_prompt_cascade_is_isolated Shelf.db 1 2 Toy.tile eq_refl Hnd)
    as (_ & _ & _ & _ & _ & Hgone & Hkept & _).
  split; [exact Hgone|]. apply Hkept. discriminate.
Defined.

(** X13.  A prompt identifier SQLite can hold that matches no row:
    [update_prompt] and [delete_prompt] both abort with 404, which werkzeug
    answers with its error page, and leave the database as it was, whatever
    fields the update carried. *)
Theorem missing_prompt_is_not_found (db : DB) (pk : Z) (title content category : option string)
    (now : datetime) :
  sqlite_int pk ->
  (forall p, In p (prompts db) -> Prompt.id p <> pk) ->
  update_prompt db pk title content category now = (db, Aborted 404) /\
  delete_prompt db pk = (db, Aborted 404).
Proof.
  intros _ Hnone.
  assert (E : find (fun p => Prompt.id p =? pk) (prompts db) = None).
  { destruct (find _ (prompts db)) as [p|] eqn:E; [|reflexivity].
    apply find_some in E. destruct E as [Hin Hid]. apply Z.eqb_eq in Hid.
    now apply Hnone in Hin. }
  unfold update_prompt, delete_prompt. rewrite E. split; reflexivity.
Qed.

Lemma missing_prompt_is_not_found_witness :
  update_prompt Shelf.db 9 (Some "Title") None None 50 = (Shelf.db, Aborted 404) /\
  delete_prompt Shelf.db 9 = (Shelf.db, Aborted 404).
Proof.
  apply missing_prompt_is_not_found.
  - unfold sqlite_int. lia.
  - intros p [<-|[<-|[]]]; discriminate.
Defined.

(** X14.  A created prompt takes a key no prompt holds, the category
    "General" when the request names none, and as [created_at] and
    [updated_at] the two clock readings their column defaults took; it is
    found under its key afterwards, and deleting it right away gives back
    the Prompt table as it was before the creation. *)
Theorem create_then_delete_prompt (db : DB) (title content : string)
    (category : option string) (t_created t_updated : datetime) :
  let db1 := fst (create_prompt db title content category t_created t_updated) in
  let pk := next_id (map Prompt.id (prompts db)) in
  ~ In pk (map Prompt.id (prompts db)) /\
  find (fun p => Prompt.id p =? pk) (prompts db1) =
    Some {| Prompt.id := pk; Prompt.title := title; Prompt.content := content;
            Prompt.created_at := t_created; Prompt.updated_at := t_updated;
            Prompt.category := match category with Some c => c | None => "General" end |} /\
  prompts (fst (delete_prompt db1 pk)) = prompts db /\
  snd (delete_prompt db1 pk) = Json 204 [].
Proof.
  cbv zeta. destruct (find_above (prompts db)) as [Hnone Hall].
  assert (Hfind : find (fun p => Prompt.id p =? next_id (map Prompt.id (prompts db)))
                       (prompts (fst (create_prompt db title content category
                                        t_created t_updated))) =
                  Some {| Prompt.id := next_id (map Prompt.id (prompts db));
                          Prompt.title := title; Prompt.content := content;
                          Prompt.created_at := t_created; Prompt.updated_at := t_updated;
                          Prompt.category := get_default category "General" |}).
  { simpl. rewrite find_app_last, Hnone. simpl. now rewrite Z.eqb_refl. }
  split.
  { intros Hin. pose proof (next_id_above (map Prompt.id (prompts db))) as H.
    rewrite Forall_forall in H. specialize (H _ Hin). lia. }
  split; [exact Hfind|].
  unfold delete_prompt. rewrite Hfind. simpl.
  rewrite filter_app, Hall. simpl. rewrite Z.eqb_refl. simpl.
  split; [apply app_nil_r | reflexivity].
Qed.

Lemma revise_nothing (now : datetime) (p : Prompt.t) : revise None None None now p = p.
Proof.
  destruct p. unfold revise. simpl. now rewrite !String.eqb_refl.
Qed.

Lemma revise_stamps (title content category : option string) (now : datetime)
    (p : Prompt.t) :
  revise title content category now p = p \/
  Prompt.updated_at (revise title content category now p) = now.
Proof.
  unfold revise. simpl.
  destruct (get_default title (Prompt.title p) =? Prompt.title p)%string eqn:E1;
    [|right; reflexivity].
  destruct (get_default content (Prompt.content p) =? Prompt.content p)%string eqn:E2;
    [|right; reflexivity].
  destruct (get_default category (Prompt.category p) =? Prompt.category p)%string eqn:E3;
    [|right; reflexivity].
  left. apply String.eqb_eq in E1, E2, E3. rewrite E1, E2, E3. destruct p. reflexivity.
Qed.

(** X15.  [update_prompt] edits one row and only the fields it was given:
    the prompt found under the key takes the title, content and category of
    the request where present and keeps its own where absent, keeps its key
    and creation time, and has [updated_at] set to the current time unless
    nothing changed; with distinct keys every other prompt is as it was; the
    other tables are untouched; and a request without fields changes
    nothing at all. *)
Theorem update_prompt_edits_one_row (db : DB) (pk : Z) (title content category : option string)
    (now : datetime) (p : Prompt.t) :
  find (fun p => Prompt.id p =? pk) (prompts db) = Some p ->
  NoDup (map Prompt.id (prompts db)) ->
  let db' := fst (update_prompt db pk title content category now) in
  exists p',
    find (fun p => Prompt.id p =? pk) (prompts db') = Some p' /\
    Prompt.id p' = Prompt.id p /\
    Prompt.created_at p' = Prompt.created_at p /\
    Prompt.title p' = match title with Some t => t | None => Prompt.title p end /\
    Prompt.content p' = match content with Some t => t | None => Prompt.content p end /\
    Prompt.category p' = match category with Some t => t | None => Prompt.category p end /\
    (p' = p \/ Prompt.updated_at p' = now) /\
    (forall q, In q (prompts db) -> q <> p -> In q (prompts db')) /\
    length (prompts db') = length (prompts db) /\
    user_sessions db' = user_sessions db /\ chats db' = chats db /\
    messages db' = messages db /\
    (title = None -> content = None -> category = None -> db' = db).
Proof.
  intros Hfind Hnd. cbv zeta.
  pose proof (find_some _ _ Hfind) as [Hin Hid]. apply Z.eqb_eq in Hid.
  unfold update_prompt. rewrite Hfind. simpl.
  exists (revise title content category now p).
  split.
  { clear Hnd Hin. induction (prompts db) as [|a l IH]; simpl in *; [discriminate|].
    destruct (Prompt.id a =? pk) eqn:E.
    - inversion Hfind; subst a. simpl. now rewrite E.
    - rewrite E. now apply IH. }
  split; [reflexivity|]. split; [reflexivity|].
  split; [destruct title; reflexivity|].
  split; [destruct content; reflexivity|].
  split; [destruct category; reflexivity|].
  split; [apply revise_stamps|].
  split.
  { intros q Hq Hne. apply in_map_iff. exists q. split; [|exact Hq].
    destruct (Prompt.id q =? pk) eqn:E; [|reflexivity].
    apply Z.eqb_eq in E. exfalso. apply Hne.
    apply (same_key_same_row Prompt.id (prompts db)); auto. congruence. }
  split; [apply length_map|].
  repeat split.
  intros -> -> ->.
  assert (E : map (fun q => if Prompt.id q =? pk then revise None None None now q else q)
                  (prompts db) = prompts db).
  { rewrite <- (map_id (prompts db)) at 2. apply map_ext. intros q.
    destruct (Prompt.id q =? pk); [apply revise_nothing | reflexivity]. }
  rewrite E. destruct db. reflexivity.
Qed.

Lemma update_prompt_edits_one_row_witness :
  exists p',
    find (fun p => Prompt.id p =? 1) (prompts (fst (update_prompt Shelf.db 1 (Some "To French") None None 50)))
      = Some p' /\
    Prompt.title p' = "To French" /\ Prompt.content p' = "Translate to French." /\
    (p' = Toy.tile \/ Prompt.updated_at p' = 50).
Proof.
  assert (Hnd : NoDup (map Prompt.id (prompts Shelf.db))).
  { apply ascend_NoDup. simpl. repeat constructor. }
  destruct (update_prompt_edits_one_row Shelf.db 1 (Some "To French") None None 50 Toy.tile
              eq_refl Hnd) as (p' & Hf & _ & _ & Ht & Hc & _ & Hu & _).
  exists p'. auto.
Defined.

(** ** A first turn, read back *)

Lemma no_message_of_next_chat (db : DB) :
  messages_owned db ->
  filter (fun m => Message.chat_id m =? next_id (map Chat.id (chats db))) (messages db) = [].
Proof.
  unfold messages_owned. intros H.
  pose proof (next_id_above (map Chat.id (chats db))) as Habove.
  rewrite Forall_forall in Habove.
  induction H as [|m l (c & Hc & Hid) Hl IH]; simpl; [reflexivity|].
  assert (E : (Message.chat_id m =? next_id (map Chat.id (chats db))) = false).
  { apply Z.eqb_neq. specialize (Habove (Chat.id c) (in_map Chat.id _ _ Hc)). lia. }
  rewrite E. exact IH.
Qed.

(** X16.  A first turn under a prompt, read back before any reply: when a
    request of a valid session carries a prompt identifier SQLite can hold
    and no chat identifier, a chat is created under that identifier with a
    key no chat held, whether or not a Prompt has it, and [get_chats] for
    that identifier then lists one chat more, the new one, whose messages
    are exactly one: role "user", the request's message as content, the
    next key of the Message table and the handler's clock reading.  It
    assumes every message in the database belongs to a chat, which the
    service maintains. *)
Theorem first_turn_is_listed (F : Fernet) (db : DB) (req : chat_request)
    (t_used t_chat t_msg : datetime) (key : string) (pid : Z) :
  snd (get_api_key_from_session F db (rq_session_id req) t_used) = Some key ->
  key <> "" ->
  truthy_opt truthy_int (rq_chat_id req) = false ->
  rq_prompt_id req = Some pid ->
  pid <> 0 ->
  sqlite_int pid ->
  messages_owned db ->
  let db' := fst (stream_chat F db req t_used t_chat t_msg) in
  let cid := 1 + fold_right Z.max 0 (map Chat.id (chats db)) in
  chat_by_id db cid = None /\
  In {| cd_id := cid;
        cd_prompt_id := pid;
        cd_created_at := t_chat;
        cd_messages :=
          [{| Message.d_id := 1 + fold_right Z.max 0 (map Message.id (messages db));
              Message.d_role := "user";
              Message.d_content :=
                match rq_message req with Some text => text | None => "" end;
              Message.d_created_at := t_msg |}] |}
     (get_chats db' pid) /\
  length (get_chats db' pid) = S (length (get_chats db pid)).
Proof.
  intros Hkey Hne Hnochat Hpid Hnz _ Howned. cbv zeta.
  change (1 + fold_right Z.max 0 (map Chat.id (chats db)))
    with (next_id (map Chat.id (chats db))).
  change {| Message.d_id := 1 + fold_right Z.max 0 (map Message.id (messages db));
            Message.d_role := "user";
            Message.d_content := match rq_message req with Some text => text | None => "" end;
            Message.d_created_at := t_msg |}
    with (Message.to_dict (new_message db (next_id (map Chat.id (chats db))) "user"
                             (get_default (rq_message req) "") t_msg)).
  rewrite (stream_chat_authorized F db req _ _ _ key Hkey Hne). cbv zeta. simpl fst.
  destruct (resolve_frame F db (rq_session_id req) t_used) as (_ & Hchats & Hmsgs & _).
  set (db1 := fst (get_api_key_from_session F db (rq_session_id req) t_used)) in *.
  unfold resolve_chat. rewrite Hnochat, Hpid. simpl truthy_opt.
  assert (Ht : truthy_int pid = true).
  { unfold truthy_int. apply negb_true_iff. now apply Z.eqb_neq. }
  rewrite Ht. simpl fst. simpl snd. simpl get_default. unfold save_user_message.
  rewrite Hchats.
  set (cid := next_id (map Chat.id (chats db))).
  set (c := {| Chat.id := cid; Chat.prompt_id := pid;
               Chat.session_id := get_default (rq_session_id req) "";
               Chat.created_at := t_chat |}).
  set (u := new_message (add_chat db1 c) (Chat.id c) "user" (get_default (rq_message req) "") t_msg).
  assert (Eu : u = new_message db cid "user" (get_default (rq_message req) "") t_msg).
  { apply new_message_same_rows. simpl. exact Hmsgs. }
  split.
  { unfold chat_by_id.
    destruct (find (fun c0 => Chat.id c0 =? cid) (chats db)) as [c0|] eqn:E; [|reflexivity].
    apply find_some in E. destruct E as [Hin Hid]. apply Z.eqb_eq in Hid.
    pose proof (next_id_above (map Chat.id (chats db))) as Habove.
    rewrite Forall_forall in Habove.
    specialize (Habove (Chat.id c0) (in_map Chat.id _ _ Hin)). fold cid in Habove. lia. }
  unfold get_chats. simpl chats. rewrite Hchats, filter_app. simpl filter.
  rewrite Z.eqb_refl. rewrite !order_chats_by.
  assert (Hnone : filter (fun m => Message.chat_id m =? cid) (messages db) = [])
    by exact (no_message_of_next_chat db Howned).
  split.
  - apply in_map_iff. exists c. split.
    + unfold Chat_to_dict, chat_messages. simpl. rewrite Hmsgs, filter_app, Hnone.
      simpl. rewrite Eu. simpl. rewrite Z.eqb_refl. reflexivity.
    + eapply Permutation_in; [symmetry; apply sort_by_perm|].
      apply in_or_app. right. now left.
  - rewrite !length_map.
    rewrite (Permutation_length (sort_by_perm Chat.created_at _)).
    rewrite (Permutation_length (sort_by_perm Chat.created_at _)).
    rewrite length_app. simpl. lia.
Qed.

Lemma first_turn_is_listed_witness :
  In {| cd_id := 2;
        cd_prompt_id := 1;
        cd_created_at := 31;
        cd_messages :=
          [{| Message.d_id := 2; Message.d_role := "user";
              Message.d_content := "good morning"; Message.d_created_at := 32 |}] |}
     (get_chats (fst (stream_chat Toy.cipher Toy.db Toy.start_chat 30 31 32)) 1).
Proof.
  assert (Hne : "AIza-key" <> "") by discriminate.
  assert (Hnz : 1 <> 0) by discriminate.
  assert (Hint : sqlite_int 1) by (unfold sqlite_int; lia).
  assert (Howned : messages_owned Toy.db).
  { constructor; [|constructor]. exists Toy.chat. split; [now left | reflexivity]. }
  destruct (first_turn_is_listed Toy.cipher Toy.db Toy.start_chat 30 31 32 "AIza-key" 1
              eq_refl Hne eq_refl eq_refl Hnz Hint Howned) as (_ & H & _).
  exact H.
Defined.

(** ** What is never removed *)

Section AppendOnly.
Variable F : Fernet.

Lemma stream_chat_tables (db : DB) (req : chat_request) (t_used t_chat t_msg : datetime) :
  let db' := fst (stream_chat F db req t_used t_chat t_msg) in
  prompts db' = prompts db /\ grows (chats db) (chats db') /\
  grows (messages db) (messages db').
Proof.
  cbv zeta.
  destruct (stream_chat_rows F db req t_used t_chat t_msg) as (rest & Hm & _).
  split; [|split; [|exists rest; exact Hm]].
  - unfold stream_chat.
    destruct (resolve_frame F db (rq_session_id req) t_used) as (Hp & _).
    destruct (get_api_key_from_session F db (rq_session_id req) t_used) as [db1 k].
    simpl in Hp. destruct (negb (truthy_opt truthy_str k)); [exact Hp|].
    destruct (resolve_chat_frame db1 req t_chat) as (_ & Hp2 & _).
    destruct (resolve_chat db1 req t_chat) as [db2 chat]. simpl in *.
    destruct chat; simpl; congruence.
  - unfold stream_chat.
    destruct (resolve_frame F db (rq_session_id req) t_used) as (_ & Hc & _).
    destruct (get_api_key_from_session F db (rq_session_id req) t_used) as [db1 k].
    simpl in Hc. destruct (negb (truthy_opt truthy_str k)); [now apply grows_same|].
    assert (Hg : grows (chats db) (chats (fst (resolve_chat db1 req t_chat)))).
    { unfold resolve_chat.
      destruct (truthy_opt truthy_int (rq_chat_id req)); [now apply grows_same|].
      destruct (truthy_opt truthy_int (rq_prompt_id req)); [|now apply grows_same].
      simpl. rewrite Hc. eexists. reflexivity. }
    destruct (resolve_chat db1 req t_chat) as [db2 chat]. simpl in *.
    destruct chat; exact Hg.
Qed.

Lemma exec_keeps_rows (w w' : World) (ev : event F) :
  is_delete ev = false ->
  exec F w ev = Some w' ->
  grows (map Prompt.id (prompts (w_db w))) (map Prompt.id (prompts (w_db w'))) /\
  grows (chats (w_db w)) (chats (w_db w')) /\
  grows (messages (w_db w)) (messages (w_db w')).
Proof.
  intros Hnd Hexec.
  destruct ev as [title content category t_created t_updated
                 | pk title content category now | pk
                 | api_key verdict token iv t_created t_used'
                 | req t_used t_chat t_msg | i stream now];
    simpl in Hexec; try discriminate Hnd.
  - destruct ((w_clock w <=? t_created) && (t_created <=? t_updated))%bool eqn:Hle;
      [|discriminate]. inversion Hexec; subst. simpl.
    split; [|split; apply grows_refl]. rewrite map_app. eexists. reflexivity.
  - destruct (w_clock w <=? now); [|discriminate]. inversion Hexec; subst. simpl.
    unfold update_prompt.
    destruct (find _ (prompts (w_db w))); simpl; repeat split; try apply grows_refl.
    apply grows_same. rewrite map_map. apply map_ext. intros q.
    destruct (Prompt.id q =? pk); reflexivity.
  - destruct ((w_clock w <=? t_created) && (t_created <=? t_used'))%bool eqn:Hle;
      [|discriminate]. inversion Hexec; subst. simpl.
    unfold update_api_key.
    destruct (negb (truthy_opt truthy_str api_key)); [repeat split; apply grows_refl|].
    destruct verdict; [|repeat split; apply grows_refl].
    destruct (session_by_token (w_db w) token); repeat split; apply grows_refl.
  - destruct ((w_clock w <=? t_used) && (t_used <=? t_chat) && (t_chat <=? t_msg))%bool;
      [|discriminate].
    destruct (stream_chat_tables (w_db w) req t_used t_chat t_msg) as (Hp & Hc & Hm).
    destruct (stream_chat F (w_db w) req t_used t_chat t_msg) as [db h].
    inversion Hexec; subst. simpl in *.
    split; [apply grows_same; now rewrite Hp | split; assumption].
  - destruct (nth_error (w_pending w) i) as [g|]; [|discriminate].
    destruct (w_clock w <=? now); [|discriminate].
    inversion Hexec; subst. simpl.
    destruct (generate_frame (w_db w) g stream now) as (_ & Hp & Hc & rest & Hm & _).
    split; [apply grows_same; now rewrite Hp|].
    split; [now apply grows_same | exists rest; exact Hm].
Qed.
End AppendOnly.

(** X17.  Only the deletion of a prompt removes or rewrites rows of a
    conversation.  Through any sequence of requests and drained streams
    without a prompt deletion, the Chat table and the Message table of the
    start are still there, row for row and in place, with the later rows
    after them: no chat and no message is edited, reordered or dropped, and
    every prompt keeps its key and position. *)
Theorem only_deletion_removes_rows (F : Fernet) (evs : list (event F)) (w w' : World) :
  forallb (fun ev => negb (is_delete ev)) evs = true ->
  run F w evs = Some w' ->
  grows (map Prompt.id (prompts (w_db w))) (map Prompt.id (prompts (w_db w'))) /\
  grows (chats (w_db w)) (chats (w_db w')) /\
  grows (messages (w_db w)) (messages (w_db w')).
Proof.
  revert w. induction evs as [|ev evs IH]; simpl; intros w Hnd Hrun.
  - inversion Hrun; subst. repeat split; apply grows_refl.
  - apply andb_true_iff in Hnd. destruct Hnd as [Hev Hrest].
    apply negb_true_iff in Hev.
    destruct (exec F w ev) as [w1|] eqn:Hexec; [|discriminate].
    destruct (exec_keeps_rows F w w1 ev Hev Hexec) as (Hp & Hc & Hm).
    destruct (IH w1 Hrest Hrun) as (Hp' & Hc' & Hm').
    repeat split; eapply grows_trans; eassumption.
Qed.

Lemma only_deletion_removes_rows_witness :
  exists w,
    run Toy.cipher initial (session_events Toy.cipher tt) = Some w /\
    grows (messages (w_db initial)) (messages (w_db w)) /\
    grows (chats (w_db initial)) (chats (w_db w)).
Proof.
  eexists. split; [vm_compute; reflexivity|].
  destruct (only_deletion_removes_rows Toy.cipher (session_events Toy.cipher tt) initial
              (match run Toy.cipher initial (session_events Toy.cipher tt) with
               | Some w => w | None => initial end) eq_refl) as (_ & Hc & Hm).
  - vm_compute. reflexivity.
  - split; [exact Hm | exact Hc].
Defined.

(** ** One turn, one transcript *)

(** X18.  A turn writes to the transcript of its own chat only.  Whatever
    the provider stream does, a request of a valid session that resolves to
    a chat appends to that chat's messages the user row and after it at most
    one row, an assistant row of the same chat, and the messages read back
    for every other chat are exactly what they were. *)
Theorem turn_extends_one_transcript (F : Fernet)
    (genai : string -> string -> provider_stream) (db : DB) (req : chat_request)
    (t_used t_chat t_msg t_reply : datetime) (key : string) (c : Chat.t) :
  snd (get_api_key_from_session F db (rq_session_id req) t_used) = Some key ->
  key <> "" ->
  snd (resolve_chat db req t_chat) = Some c ->
  let sv := serve_stream_chat F genai db req t_used t_chat t_msg t_reply in
  let user_row := new_message db (Chat.id c) "user" (get_default (rq_message req) "") t_msg in
  exists rest,
    chat_messages (sv_db sv) (Chat.id c) =
      (chat_messages db (Chat.id c) ++ user_row :: rest)%list /\
    (length rest <= 1)%nat /\
    Forall (fun m => Message.chat_id m = Chat.id c /\ Message.role m = "assistant") rest /\
    (forall other, other <> Chat.id c ->
       chat_messages (sv_db sv) other = chat_messages db other).
Proof.
  intros Hkey Hne Hc. cbv zeta.
  destruct (turn_ready F db req t_used t_chat t_msg key c Hkey Hne Hc)
    as (db3 & c' & Hsc & Hm3 & Hrow & Hid).
  unfold serve_stream_chat. rewrite Hsc. cbv iota beta. simpl g_api_key. simpl g_full_prompt.
  set (stream := genai key _).
  assert (Hrest : exists rest,
            messages (dr_db (generate db3
               {| g_api_key := key;
                  g_full_prompt := full_prompt (get_default (rq_prompt req) "")
                                               (get_default (rq_message req) "");
                  g_chat := Some (Chat.id c) |} stream t_reply))
              = (messages db3 ++ rest)%list /\
            (length rest <= 1)%nat /\
            Forall (fun m => Message.chat_id m = Chat.id c /\ Message.role m = "assistant")
                   rest).
  { unfold generate. simpl g_chat.
    destruct (relay (chunks stream) "") as [total events].
    assert (Hsame : exists rest, messages db3 = (messages db3 ++ rest)%list /\
              (length rest <= 1)%nat /\
              Forall (fun m => Message.chat_id m = Chat.id c /\ Message.role m = "assistant")
                     rest).
    { exists []. rewrite app_nil_r. simpl. repeat split; [lia | constructor]. }
    destruct (ending stream); [|exact Hsame].
    destruct (truthy_str total); [|exact Hsame].
    rewrite Hrow. simpl. eexists. split; [reflexivity|]. split; [simpl; lia|].
    constructor; [|constructor]. simpl. split; [exact Hid | reflexivity]. }
  destruct Hrest as (rest & Hm & Hlen & Hall).
  exists rest. simpl sv_db. unfold chat_messages. rewrite Hm, Hm3.
  split.
  { assert (Eown : filter (fun m => Message.chat_id m =? Chat.id c) rest = rest).
    { clear Hm Hlen. induction Hall as [|m l [Hcid _] Hl IH]; simpl; [reflexivity|].
      rewrite Hcid, Z.eqb_refl, IH. reflexivity. }
    rewrite <- app_assoc, !filter_app, Eown. simpl. rewrite Z.eqb_refl. reflexivity. }
  split; [exact Hlen|]. split; [exact Hall|].
  intros other Hother. rewrite <- app_assoc, !filter_app. simpl.
  assert (E : (Chat.id c =? other) = false) by (apply Z.eqb_neq; congruence).
  rewrite E.
  assert (Enone : filter (fun m => Message.chat_id m =? other) rest = []).
  { clear Hm Hlen. induction Hall as [|m l [Hcid _] Hl IH]; simpl; [reflexivity|].
    rewrite Hcid, E. exact IH. }
  rewrite Enone. simpl. now rewrite app_nil_r.
Qed.

Lemma turn_extends_one_transcript_witness :
  exists rest,
    chat_messages
      (sv_db (serve_stream_chat Toy.cipher Toy.hello Shelf.db Toy.continue_chat 30 31 32 33)) 1 =
      (chat_messages Shelf.db 1 ++
       new_message Shelf.db 1 "user" "and in Spanish?" 32 :: rest)%list /\
    chat_messages
      (sv_db (serve_stream_chat Toy.cipher Toy.hello Shelf.db Toy.continue_chat 30 31 32 33)) 2 =
      chat_messages Shelf.db 2.
Proof.
  assert (Hne : "AIza-key" <> "") by discriminate.
  destruct (turn_extends_one_transcript Toy.cipher Toy.hello Shelf.db Toy.continue_chat
              30 31 32 33 "AIza-key" Toy.chat eq_refl Hne eq_refl)
    as (rest & Hown & _ & _ & Hothers).
  exists rest. split; [exact Hown|]. apply Hothers. discriminate.
Defined.
